(** * Drift_Function.py: stepwise drift removal for running ground reaction forces

    A shallow embedding of [readcheck_input], [step_ID], [trim_aerial_phases]
    and [detrend_force], and the properties of the segmentation and of the
    stepwise baseline subtraction.

    Conventions of the embedding.
    - Sample indices are [Z]: numpy's int64 indices are bounded by the length
      of the signal and do not wrap around.  Slices follow Python's rules
      (negative bounds count from the end, bounds are clipped).
    - A force value is a [sample]: an exact rational, or [NaN].  Rounding and
      overflow of binary64 are not modelled; [NaN] is kept because the code
      produces it ([np.full(.., np.nan)], [np.mean] of an empty slice) and
      because every comparison with it is false.
    - A raised exception is a value of [result]; [print] and the matplotlib
      drawing calls return nothing that the computation uses and are left
      out; [plots] is [False].  The [ax.axvline] calls of lines 112-113 are
      among them: the error that matplotlib raises there, when the force at
      [end[0]] or at [begin[1]] does not occur exactly once in the plotted
      window, is not modelled: on such an input the model goes on where the
      code raises [ValueError].
    - [max_step] is the exact product of 4/10 and [Fs].
    - The table read by [pd.read_csv], the Butterworth filter ([butter],
      [filtfilt]) and the mouse clicks ([plt.ginput]) are inputs of the
      model. *)

From Stdlib Require Import String ZArith QArith Qreduction List Bool Lia.
Import ListNotations.
Open Scope Z_scope.

(** ** Exceptions *)

Inductive exn : Type :=
| IndexError (msg : string)
| ValueError (msg : string).

(** The outcome of a call: a value, an exception, or no return at all while
    the call waits for a mouse click that does not come. *)
Inductive result (A : Type) : Type :=
| Ok (a : A)
| Raise (e : exn)
| Waiting.
Arguments Ok {A} a.
Arguments Raise {A} e.
Arguments Waiting {A}.

Definition bind {A B : Type} (r : result A) (k : A -> result B) : result B :=
  match r with
  | Ok a => k a
  | Raise e => Raise e
  | Waiting => Waiting
  end.

Notation "x <- r ;; k" := (bind r (fun x => k))
  (at level 61, r at next level, right associativity).

Definition is_IndexError {A : Type} (r : result A) : Prop :=
  exists msg, r = Raise (IndexError msg).

(** ** Force values *)

Inductive sample : Type :=
| Val (q : Q)
| NaN.

Definition zero : sample := Val 0.

Definition lift2 (f : Q -> Q -> Q) (x y : sample) : sample :=
  match x, y with
  | Val a, Val b => Val (Qred (f a b))
  | _, _ => NaN
  end.

Definition add : sample -> sample -> sample := lift2 Qplus.
Definition sub : sample -> sample -> sample := lift2 Qminus.
(** The code divides by 2 and by the length of a non-empty slice only. *)
Definition div : sample -> sample -> sample := lift2 Qdiv.

(** [x > t] *)
Definition gt (x : sample) (t : Q) : bool :=
  match x with
  | Val q => negb (Qle_bool q t)
  | NaN => false
  end.

(** [x == y] on floats: false as soon as one side is NaN. *)
Definition feq (x y : sample) : bool :=
  match x, y with
  | Val a, Val b => Qeq_bool a b
  | _, _ => false
  end.

(** Numerical equality of two values (NaN only with NaN). *)
Definition same (x y : sample) : Prop :=
  match x, y with
  | Val a, Val b => (a == b)%Q
  | NaN, NaN => True
  | _, _ => False
  end.

(** ** Python sequences *)

Definition len {A : Type} (l : list A) : Z := Z.of_nat (length l).

(** [l[i]] for an integer [i]. *)
Definition getitem {A : Type} (l : list A) (i : Z) : result A :=
  let j := if i <? 0 then i + len l else i in
  if (0 <=? j) && (j <? len l) then
    match nth_error l (Z.to_nat j) with
    | Some a => Ok a
    | None => Raise (IndexError "index out of bounds")
    end
  else Raise (IndexError "index out of bounds").

(** A slice bound [i], clipped into [0, n]. *)
Definition clip (i n : Z) : Z :=
  if i <? 0 then Z.max 0 (i + n) else Z.min i n.

(** [l[a:b]] *)
Definition slice {A : Type} (a b : Z) (l : list A) : list A :=
  let a' := clip a (len l) in
  let b' := clip b (len l) in
  firstn (Z.to_nat (b' - a')) (skipn (Z.to_nat a') l).

(** [l[a:b] = r], for [r] of the shape of [l[a:b]]. *)
Definition set_slice {A : Type} (a b : Z) (r : list A) (l : list A) : list A :=
  let a' := clip a (len l) in
  let b' := clip b (len l) in
  if a' <? b' then firstn (Z.to_nat a') l ++ r ++ skipn (Z.to_nat b') l
  else l.

(** ** Two-dimensional arrays

    [width] is [shape[1]]; the rows of a numpy array or of a pandas table all
    have that many entries. *)

Record array2 : Type := Array2 {
  width : nat;
  rows : list (list sample)
}.

(** [a[:,c]] *)
Definition col (c : nat) (a : array2) : result (list sample) :=
  if (c <? width a)%nat then Ok (map (fun r => nth c r NaN) (rows a))
  else Raise (IndexError "index is out of bounds for axis 1").

(** [a[i,c]] *)
Definition getitem2 (a : array2) (i : Z) (c : nat) : result sample :=
  r <- getitem (rows a) i ;;
  if (c <? width a)%nat then Ok (nth c r NaN)
  else Raise (IndexError "index is out of bounds for axis 1").

(** ** readcheck_input *)

Definition bad_columns : string :=
  "force data must be Nx3 columns [horizontal, horizontal, vertical]".

(** [force_imported] is the table that [pd.read_csv] produced. *)
Definition readcheck_input (force_imported : array2) : result array2 :=
  if (width force_imported =? 3)%nat then Ok force_imported
  else Raise (ValueError bad_columns).

(** ** step_ID *)

Definition astype_int (b : bool) : Z := if b then 1 else 0.

(** [np.diff] *)
Fixpoint diff (l : list Z) : list Z :=
  match l with
  | a :: (b :: _) as t => (b - a) :: diff t
  | _ => []
  end.

(** [np.nonzero] of a boolean vector, the indices counted from [i]. *)
Fixpoint nonzero_from (i : Z) (l : list bool) : list Z :=
  match l with
  | [] => []
  | b :: t => if b then i :: nonzero_from (i + 1) t else nonzero_from (i + 1) t
  end.

Definition nonzero (l : list bool) : list Z := nonzero_from 0 l.

(** An index array after [np.squeeze]: a column of exactly one index becomes
    a 0-dimensional array, every other column a vector. *)
Inductive index_array : Type :=
| Scalar (x : Z)
| Vector (xs : list Z).

(** [np.squeeze(np.asarray(np.nonzero(c)).transpose())] *)
Definition squeeze_column (xs : list Z) : index_array :=
  match xs with
  | [x] => Scalar x
  | _ => Vector xs
  end.

(** [a[0]] *)
Definition first_item (a : index_array) : result Z :=
  match a with
  | Scalar _ =>
      Raise (IndexError "too many indices for array: array is 0-dimensional, but 1 were indexed")
  | Vector [] =>
      Raise (IndexError "index 0 is out of bounds for axis 0 with size 0")
  | Vector (x :: _) => Ok x
  end.

(** [a[a > b]]: a boolean index always yields a vector. *)
Definition select_gt (a : index_array) (b : Z) : list Z :=
  match a with
  | Scalar x => if b <? x then [x] else []
  | Vector xs => filter (fun x => b <? x) xs
  end.

(** [a[0:n]] *)
Definition take (a : index_array) (n : nat) : result (list Z) :=
  match a with
  | Scalar _ =>
      Raise (IndexError "too many indices for array: array is 0-dimensional, but 1 were indexed")
  | Vector xs => Ok (firstn n xs)
  end.

Fixpoint zip_sub (a b : list Z) : list Z :=
  match a, b with
  | x :: a', y :: b' => (x - y) :: zip_sub a' b'
  | _, _ => []
  end.

(** [a - b] on vectors, with numpy's broadcasting of a vector of length 1. *)
Definition np_sub (a b : list Z) : result (list Z) :=
  if (length a =? length b)%nat then Ok (zip_sub a b)
  else match a, b with
       | [x], _ => Ok (map (fun y => x - y) b)
       | _, [y] => Ok (map (fun x => x - y) a)
       | _, _ => Raise (ValueError "operands could not be broadcast together")
       end.

Fixpoint compress (m : list bool) (l : list Z) : list Z :=
  match m, l with
  | b :: m', x :: l' => if b then x :: compress m' l' else compress m' l'
  | _, _ => []
  end.

(** [l[m]] for a boolean vector [m]. *)
Definition select (m : list bool) (l : list Z) : result (list Z) :=
  if (length m =? length l)%nat then Ok (compress m l)
  else Raise (IndexError "boolean index did not match indexed array").

Definition Qlt_bool (x y : Q) : bool := negb (Qle_bool y x).

(** [(force[:,2] > threshold).astype(int)] *)
Definition binarize (vertical : list sample) (threshold : Q) : list Z :=
  map (fun v => astype_int (gt v threshold)) vertical.

Definition rising (events : list Z) : list Z := nonzero (map (Z.eqb 1) events).
Definition falling (events : list Z) : list Z := nonzero (map (Z.eqb (-1)) events).

(** Lines 47-50: the falling edges after the first rising edge, and as many
    rising edges. *)
Definition pair_edges (events : list Z) : result (list Z * list Z) :=
  let step_begin := squeeze_column (rising events) in
  let step_end := squeeze_column (falling events) in
  b0 <- first_item step_begin ;;
  let step_end := select_gt step_end b0 in
  step_begin <- take step_begin (length step_end) ;;
  Ok (step_begin, step_end).

Definition good (min_step max_step : Q) (step_len : Z) : bool :=
  Qle_bool min_step (inject_Z step_len) && Qle_bool (inject_Z step_len) max_step.

Definition no_separation : string :=
  "Did not separate steps. Min step length > Max step length of 0.4s.".

Definition step_ID (force : array2) (threshold Fs min_step max_step : Q)
  : result (list Z * list Z) :=
  if Qlt_bool min_step max_step then
    vertical <- col 2 force ;;
    let compare := binarize vertical threshold in
    let events := diff compare in
    p <- pair_edges events ;;
    let '(step_begin, step_end) := p in
    step_len <- np_sub step_end step_begin ;;
    let good_step := map (good min_step max_step) step_len in
    step_begin_all <- select good_step step_begin ;;
    step_end_all <- select good_step step_end ;;
    Ok (step_begin_all, step_end_all)
  else Raise (IndexError no_separation).

(** ** trim_aerial_phases *)

(** [np.round(x/2).astype(int)] for an integer [x]: halves go to the even
    neighbour. *)
Definition round_half (x : Z) : Z :=
  let k := x / 2 in
  if Z.even x then k else if Z.even k then k else k + 1.

(** The [while bad_points] loop.  Each element of [clicks] is one answer of
    [plt.ginput(2)]: the x coordinates of the two selected points, as
    integers. *)
Fixpoint ask_trim (start_a end_a : list bool) (clicks : list (Z * Z)) : result Z :=
  match clicks with
  | [] => Waiting
  | (p0, p1) :: clicks' =>
      s <- getitem (nonzero start_a) 0 ;;
      if (p0 <? s) || (p1 <? s) then ask_trim start_a end_a clicks'
      else
        e <- getitem (nonzero end_a) 0 ;;
        if (e <? p0) || (e <? p1) then ask_trim start_a end_a clicks'
        else if p1 <? p0 then ask_trim start_a end_a clicks'
        else Ok (round_half (p0 - s + e - p1))
  end.

Definition trim_too_long : string :=
  "Trim amount is greater than aerial phase length. If trim selection was reasonable, adjust threshold or min_step_len.".

(** Lines 137-142, for the [trim] that the clicks gave. *)
Definition check_trim (begin end_ : list Z) (trim : Z) : result Z :=
  let aerial_begin := removelast end_ in      (* end[:-1] *)
  let aerial_end := tl begin in               (* begin[1:] *)
  aerial_len <- np_sub aerial_end aerial_begin ;;
  if existsb (fun l => l <? trim * 2) aerial_len
  then Raise (IndexError trim_too_long)
  else Ok trim.

Definition trim_aerial_phases (force : array2) (begin end_ : list Z)
    (clicks : list (Z * Z)) : result Z :=
  b0 <- getitem begin 0 ;;
  e1 <- getitem end_ 1 ;;
  vertical <- col 2 force ;;
  let window := slice b0 e1 vertical in
  e0 <- getitem end_ 0 ;;
  at_end <- getitem2 force e0 2 ;;
  let start_a := map (fun v => feq v at_end) window in
  b1 <- getitem begin 1 ;;
  at_begin <- getitem2 force b1 2 ;;
  let end_a := map (fun v => feq v at_begin) window in
  trim <- ask_trim start_a end_a clicks ;;
  check_trim begin end_ trim.

(** ** detrend_force *)

(** [range(n)] *)
Definition range (n : Z) : list Z := map Z.of_nat (seq 0 (Z.to_nat n)).

Fixpoint for_each {A S : Type} (body : S -> A -> result S) (l : list A) (s : S)
  : result S :=
  match l with
  | [] => Ok s
  | x :: l' => s' <- body s x ;; for_each body l' s'
  end.

Fixpoint collect {A B : Type} (f : A -> result B) (l : list A) : result (list B) :=
  match l with
  | [] => Ok []
  | x :: l' => y <- f x ;; ys <- collect f l' ;; Ok (y :: ys)
  end.

(** [np.mean] of a vector: NaN for an empty one. *)
Definition np_mean (l : list sample) : sample :=
  match l with
  | [] => NaN
  | _ => div (fold_left add l zero) (Val (inject_Z (len l)))
  end.

(** [np.mean(force[lo:hi,c])] *)
Definition mean_of (force : array2) (lo hi : Z) (c : nat) : result sample :=
  column <- col c force ;;
  Ok (np_mean (slice lo hi column)).

(** Lines 241-245.  Every entry of the NaN-filled [aerial_means] is assigned
    once, row after row. *)
Definition aerial_means_of (force_f : array2) (aerial_begin_all aerial_end_all : list Z)
    (trim : Z) : result array2 :=
  means <- collect (fun i =>
      b <- getitem aerial_begin_all i ;;
      e <- getitem aerial_end_all i ;;
      m0 <- mean_of force_f (b + trim) (e - trim) 0 ;;
      m1 <- mean_of force_f (b + trim) (e - trim) 1 ;;
      m2 <- mean_of force_f (b + trim) (e - trim) 2 ;;
      Ok [m0; m1; m2])
    (range (len aerial_begin_all)) ;;
  Ok (Array2 3 means).

(** [np.zeros(a.shape)] *)
Definition zeros_like (a : array2) : list (list sample) :=
  repeat (repeat zero (width a)) (length (rows a)).

(** [rows - d], the scalar broadcast over every axis. *)
Definition minus_scalar (d : sample) (rs : list (list sample)) : list (list sample) :=
  map (map (fun x => sub x d)) rs.

(** The body of the loop of lines 256-259. *)
Definition detrend_step (force_f : array2) (step_begin_all : list Z) (aerial_means : array2)
    (force_fd : list (list sample)) (i : Z) : result (list (list sample)) :=
  m0 <- getitem2 aerial_means i 2 ;;
  m1 <- getitem2 aerial_means (i + 1) 2 ;;
  let diff_temp := div (add m0 m1) (Val 2) in
  a <- getitem step_begin_all i ;;
  b <- getitem step_begin_all (i + 1) ;;
  Ok (set_slice a b (minus_scalar diff_temp (slice a b (rows force_f))) force_fd).

(** Lines 253-259. *)
Definition detrend (force_f : array2) (step_begin_all : list Z) (aerial_means : array2)
  : result array2 :=
  force_fd <- for_each (detrend_step force_f step_begin_all aerial_means)
                (range (len (rows aerial_means) - 1)) (zeros_like force_f) ;;
  Ok (Array2 (width force_f) force_fd).

(** Lines 278-282: the vertical means of the detrended signal that are not
    [0.0]. *)
Definition aerial_means_d_of (force_fd : array2) (aerial_begin_all aerial_end_all : list Z)
    (trim : Z) : result (list sample) :=
  means <- collect (fun i =>
      b <- getitem aerial_begin_all i ;;
      e <- getitem aerial_end_all i ;;
      mean_of force_fd (b + trim) (e - trim) 2)
    (range (len aerial_begin_all)) ;;
  Ok (filter (fun m => negb (feq m zero)) means).

(** Everything after the filter. *)
Definition detrend_filtered (force_f : array2) (Fs min_step step_threshold : Q)
    (clicks : list (Z * Z)) : result (array2 * array2 * list sample) :=
  let max_step := ((4 # 10) * Fs)%Q in
  steps <- step_ID force_f step_threshold Fs min_step max_step ;;
  let '(step_begin_all, step_end_all) := steps in
  let aerial_begin_all := removelast step_end_all in
  let aerial_end_all := tl step_begin_all in
  trim <- trim_aerial_phases force_f step_begin_all step_end_all clicks ;;
  aerial_means <- aerial_means_of force_f aerial_begin_all aerial_end_all trim ;;
  force_fd <- detrend force_f step_begin_all aerial_means ;;
  aerial_means_d <- aerial_means_d_of force_fd aerial_begin_all aerial_end_all trim ;;
  Ok (force_fd, aerial_means, aerial_means_d).

Section Pipeline.

(** [butter(2, Fc/(Fs/2))] followed by [filtfilt(b, a, force, axis = 0)], as a
    function of [Fs], [Fc] and the signal; scipy raises [ValueError] for a
    cut-off outside the band or a signal that is too short. *)
Variable lowpass : Q -> Q -> array2 -> result array2.

Definition detrend_force (force_imported : array2) (Fs Fc min_step step_threshold : Q)
    (clicks : list (Z * Z)) : result (array2 * array2 * list sample) :=
  force <- readcheck_input force_imported ;;
  force_f <- lowpass Fs Fc force ;;
  detrend_filtered force_f Fs min_step step_threshold clicks.

End Pipeline.

(** ** Notions used by the statements *)

(** [alternate up lo R F]: the rising edges [R] and the falling edges [F], all
    at or after [lo], take turns, and the first of them is a rising one when
    [up] holds and a falling one otherwise. *)
Inductive alternate : bool -> Z -> list Z -> list Z -> Prop :=
| alt_nil up lo : alternate up lo [] []
| alt_rise lo r R F :
    lo <= r -> alternate false (r + 1) R F -> alternate true lo (r :: R) F
| alt_fall lo f R F :
    lo <= f -> alternate true (f + 1) R F -> alternate false lo R (f :: F).

(** [interleaved lo sb se]: [lo <= sb[0] < se[0] < sb[1] < se[1] < ...], the
    two lists of one length. *)
Inductive interleaved : Z -> list Z -> list Z -> Prop :=
| il_nil lo : interleaved lo [] []
| il_cons lo b e sb se :
    lo <= b -> b < e -> interleaved (e + 1) sb se ->
    interleaved lo (b :: sb) (e :: se).

Fixpoint ascending (l : list Z) : Prop :=
  match l with
  | a :: (b :: _) as t => a <= b /\ ascending t
  | _ => True
  end.

(** The vertical component of aerial mean [i]. *)
Definition vertical_mean (aerial_means : array2) (i : nat) : sample :=
  nth 2 (nth i (rows aerial_means) []) NaN.

(** The baseline of step [i]: the average of the vertical components of the
    aerial means [i] and [i+1]. *)
Definition baseline (aerial_means : array2) (i : nat) : sample :=
  div (add (vertical_mean aerial_means i) (vertical_mean aerial_means (S i))) (Val 2).

(** Sample [j] lies in [[begins[i], begins[i+1])]. *)
Definition in_window (begins : list Z) (i : nat) (j : nat) : Prop :=
  nth i begins 0 <= Z.of_nat j < nth (S i) begins 0.

(** The indices [lo, lo+1, ..., hi-1]. *)
Definition indices (lo hi : Z) : list Z :=
  map (fun k => lo + Z.of_nat k) (seq 0 (Z.to_nat (hi - lo))).

(** The samples of axis [c] at the indices of [[lo, hi)]. *)
Definition samples_between (force : array2) (c : nat) (lo hi : Z) : list sample :=
  map (fun j => nth c (nth (Z.to_nat j) (rows force) []) NaN) (indices lo hi).

(** The sum of the values over their number. *)
Definition arithmetic_mean (l : list sample) : sample :=
  div (fold_left add l zero) (Val (inject_Z (len l))).

(** Row [i] of [aerial_means], as the loop of lines 242-245 fills it. *)
Definition means_row (force_f : array2) (ab ae : list Z) (trim : Z) (i : nat)
  : list sample :=
  map (fun c => match mean_of force_f (nth i ab 0 + trim) (nth i ae 0 - trim) c with
                | Ok m => m
                | _ => NaN
                end) [0; 1; 2]%nat.

(** The length of aerial phase [i], which spans [[ends[i], begins[i+1])]. *)
Definition aerial_length (begins ends : list Z) (i : nat) : Z :=
  nth (S i) begins 0 - nth i ends 0.

(** The number of samples that the binarization puts above the threshold. *)
Definition count_above (vertical : list sample) (threshold : Q) : Z :=
  fold_right Z.add 0 (binarize vertical threshold).

(** Every sample of a stance phase detected as [(b, e)], that is every sample
    from [b+1] to [e], is above the threshold. *)
Definition above_throughout (vertical : list sample) (threshold : Q) (b e : Z) : bool :=
  forallb (fun j => gt (nth (Z.to_nat j) vertical NaN) threshold)
    (indices (b + 1) (e + 1)).

(** ** Test signals *)

(** A signal with the given vertical channel and constant horizontal forces. *)
Definition signal (vertical : list Z) : array2 :=
  Array2 3 (map (fun v => [Val 1; Val 2; Val (inject_Z v)]) vertical).

(** Four stance phases of two samples each (forces 8 and 9), the aerial phases
    four samples long and drifting upwards. *)
Definition trial : array2 :=
  signal [0; 8; 9; 1; 2; 3; 4; 8; 9; 2; 3; 4; 5; 8; 9; 3; 4; 5; 6; 8; 9; 0; 0].

(** What [step_ID trial 7 10 1 4] returns. *)
Definition trial_begins : list Z := [0; 6; 12; 18].
Definition trial_ends : list Z := [2; 8; 14; 20].

(** The aerial means of [trial] for a trim of one sample. *)
Definition trial_means : array2 :=
  Array2 3 [[Val 1; Val 2; Val (3 # 2)];
            [Val 1; Val 2; Val (5 # 2)];
            [Val 1; Val 2; Val (7 # 2)]].

(** Aerial means without drift in the vertical force. *)
Definition level_means : array2 :=
  Array2 3 [[Val 1; Val 2; Val 0]; [Val 3; Val 1; Val 0]; [Val 2; Val 2; Val 0]].

(** Aerial means that are zero on every axis. *)
Definition zero_means : array2 := Array2 3 (repeat [zero; zero; zero] 3).

(** Four stance phases; the aerial phases are 6, 4 and 6 samples long. *)
Definition uneven : array2 :=
  signal [0; 8; 9; 1; 2; 3; 4; 5; 6; 8; 9; 1; 2; 3; 4; 8; 9; 1; 2; 3; 4; 5; 6; 8; 9; 0].

(** What [step_ID uneven 7 10 1 4] returns. *)
Definition uneven_begins : list Z := [0; 8; 14; 22].
Definition uneven_ends : list Z := [2; 10; 16; 24].

(** Two stance phases, each with a dip to 3 in its middle. *)
Definition dipped : array2 := signal [0; 5; 3; 5; 0; 5; 3; 5; 0].

(** A trial that starts in the middle of a stance phase and ends in one. *)
Definition midstance : array2 := signal [9; 9; 0; 0; 9; 9; 0; 0; 9; 9; 0; 0; 9].

(** ** Notions of the further properties *)

(** [alternate_runs c up lo R F]: as [alternate up lo R F], and every sample
    from an edge on to the next falling edge has [c] true. *)
Inductive alternate_runs (c : Z -> bool) : bool -> Z -> list Z -> list Z -> Prop :=
| ar_nil up lo : alternate_runs c up lo [] []
| ar_rise lo r R F :
    lo <= r -> alternate_runs c false (r + 1) R F ->
    alternate_runs c true lo (r :: R) F
| ar_fall lo f R F :
    lo <= f -> (forall j, lo <= j <= f -> c j = true) ->
    alternate_runs c true (f + 1) R F ->
    alternate_runs c false lo R (f :: F).

(** Every sample after [b], up to [e], has [c] true. *)
Definition run (c : Z -> bool) (b e : Z) : Prop :=
  forall j, b < j <= e -> c j = true.

(** Sample [j] of the vertical channel is above the threshold. *)
Definition above (vertical : list sample) (threshold : Q) (j : Z) : bool :=
  gt (nth (Z.to_nat j) vertical NaN) threshold.

(** What [detrend trial trial_begins trial_means] returns. *)
Definition trial_fd : array2 :=
  Array2 3
    ([[Val (-1); Val 0; Val (-2)]; [Val (-1); Val 0; Val 6];
      [Val (-1); Val 0; Val 7]; [Val (-1); Val 0; Val (-1)];
      [Val (-1); Val 0; Val 0]; [Val (-1); Val 0; Val 1];
      [Val (-2); Val (-1); Val 1]; [Val (-2); Val (-1); Val 5];
      [Val (-2); Val (-1); Val 6]; [Val (-2); Val (-1); Val (-1)];
      [Val (-2); Val (-1); Val 0]; [Val (-2); Val (-1); Val 1]]
     ++ repeat [zero; zero; zero] 11).

(** Lines 280-281: the vertical mean of every trimmed aerial phase of the
    detrended signal, before line 282 drops the zeros. *)
Definition means_d_raw (force_fd : array2) (aerial_begin_all aerial_end_all : list Z)
    (trim : Z) : result (list sample) :=
  collect (fun i =>
      b <- getitem aerial_begin_all i ;;
      e <- getitem aerial_end_all i ;;
      mean_of force_fd (b + trim) (e - trim) 2)
    (range (len aerial_begin_all)).

(** Line 151, the test under which [plot_aerial_phases] draws:
    [aerial_means.shape[0] == begin.shape[0] == end.shape[0]]. *)
Definition shapes_agree (aerial_means : array2) (begin end_ : list Z) : bool :=
  (length (rows aerial_means) =? length begin)%nat &&
  (length begin =? length end_)%nat.

(** * Properties *)

(** ** The edges of a binarized signal *)

Lemma alternate_weaken up lo lo' R F :
  alternate up lo R F -> lo' <= lo -> alternate up lo' R F.
Proof.
  intros H Hle. destruct H; constructor; auto; lia.
Qed.

Lemma interleaved_weaken lo lo' sb se :
  interleaved lo sb se -> lo' <= lo -> interleaved lo' sb se.
Proof.
  intros H Hle. destruct H; constructor; auto; lia.
Qed.

(** The rising and the falling edges of a sequence of zeros and ones take
    turns; which comes first is decided by the first element. *)
Lemma edges_alternate (bs : list bool) : forall (x : bool) (i : Z),
  alternate (negb x) i
    (nonzero_from i (map (Z.eqb 1) (diff (map astype_int (x :: bs)))))
    (nonzero_from i (map (Z.eqb (-1)) (diff (map astype_int (x :: bs))))).
Proof.
  induction bs as [|y bs IH]; intros x i.
  - simpl. constructor.
  - specialize (IH y (i + 1)).
    change (diff (map astype_int (x :: y :: bs)))
      with ((astype_int y - astype_int x) :: diff (map astype_int (y :: bs))).
    cbn [map nonzero_from].
    destruct x, y; cbn [astype_int negb Z.sub Z.eqb Z.add Z.opp Z.pos_sub] in *;
      simpl Z.eqb.
    + eapply alternate_weaken; [exact IH | lia].
    + constructor; [lia | exact IH].
    + constructor; [lia | exact IH].
    + eapply alternate_weaken; [exact IH | lia].
Qed.

Lemma events_alternate (vertical : list sample) (threshold : Q) :
  alternate (match vertical with [] => true | v :: _ => negb (gt v threshold) end) 0
    (rising (diff (binarize vertical threshold)))
    (falling (diff (binarize vertical threshold))).
Proof.
  unfold rising, falling, nonzero, binarize.
  destruct vertical as [|v vs].
  - simpl. constructor.
  - rewrite <- (map_map (fun v => gt v threshold) astype_int).
    apply (edges_alternate (map (fun v => gt v threshold) vs) (gt v threshold) 0).
Qed.

Lemma alternate_lower up lo R F :
  alternate up lo R F -> Forall (fun x => lo <= x) R /\ Forall (fun x => lo <= x) F.
Proof.
  induction 1 as [up lo | lo r R F Hle H [IHR IHF] | lo f R F Hle H [IHR IHF]].
  - split; constructor.
  - split; [constructor; [exact Hle|] |];
      (eapply Forall_impl; [| eassumption]); simpl; intros; lia.
  - split; [| constructor; [exact Hle|]];
      (eapply Forall_impl; [| eassumption]); simpl; intros; lia.
Qed.

Lemma alternate_pairs up lo R F :
  alternate up lo R F ->
  if up then interleaved lo (firstn (length F) R) F
  else match F with
       | [] => R = []
       | f :: F1 => lo <= f /\ interleaved (f + 1) (firstn (length F1) R) F1
       end.
Proof.
  induction 1 as [up lo | lo r R F Hle H IH | lo f R F Hle H IH].
  - destruct up; [constructor | reflexivity].
  - destruct F as [|f F1]; simpl.
    + constructor.
    + destruct IH as [Hf IH]. constructor; [exact Hle | lia | exact IH].
  - split; [exact Hle | exact IH].
Qed.

Lemma filter_all (p : Z -> bool) (l : list Z) :
  Forall (fun x => p x = true) l -> filter p l = l.
Proof.
  induction 1 as [|x l Hx Hl IH]; simpl; [reflexivity|].
  rewrite Hx, IH. reflexivity.
Qed.

(** What lines 47-50 keep, on alternating edges with a first rising edge
    [b0]: the falling edges after [b0], all of them but a leading one. *)
Lemma alternate_select up lo b0 R F :
  alternate up lo (b0 :: R) F ->
  interleaved lo
    (firstn (length (filter (fun x => b0 <? x) F)) (b0 :: R))
    (filter (fun x => b0 <? x) F) /\
  (if up then filter (fun x => b0 <? x) F = F
   else exists f, f < b0 /\ F = f :: filter (fun x => b0 <? x) F).
Proof.
  intros H.
  assert (Hup : forall F', alternate true lo (b0 :: R) F' ->
                 filter (fun x => b0 <? x) F' = F').
  { intros F' H'. inversion H' as [| ? ? ? ? Hle Hrest |]; subst.
    apply filter_all. apply alternate_lower in Hrest. destruct Hrest as [_ HF].
    eapply Forall_impl; [| exact HF]. simpl. intros x Hx.
    apply Z.ltb_lt. lia. }
  destruct up.
  - rewrite (Hup F H). split; [| reflexivity].
    exact (alternate_pairs _ _ _ _ H).
  - inversion H as [| | ? f ? F1 Hle Hrest]; subst.
    assert (Hlt : f < b0).
    { inversion Hrest; subst. lia. }
    simpl. replace (b0 <? f) with false by (symmetry; apply Z.ltb_ge; lia).
    rewrite (Hup F1 (alternate_weaken _ _ lo _ _ Hrest ltac:(lia))).
    split.
    + apply (interleaved_weaken (f + 1)); [| lia].
      exact (alternate_pairs _ _ _ _ Hrest).
    + exists f. split; [exact Hlt | reflexivity].
Qed.

Lemma interleaved_length lo sb se :
  interleaved lo sb se -> length sb = length se.
Proof. induction 1; simpl; congruence. Qed.

Lemma interleaved_lower lo sb se :
  interleaved lo sb se ->
  Forall (fun x => lo <= x) sb /\ Forall (fun x => lo < x) se.
Proof.
  induction 1 as [lo | lo b e sb se Hb He H [IHb IHe]].
  - split; constructor.
  - split; (constructor; [lia|]);
      (eapply Forall_impl; [| eassumption]); simpl; intros; lia.
Qed.

Lemma interleaved_compress lo sb se :
  interleaved lo sb se ->
  forall m, interleaved lo (compress m sb) (compress m se).
Proof.
  induction 1 as [lo | lo b e sb se Hb He H IH]; intros m.
  - destruct m as [|[] m]; constructor.
  - destruct m as [|[] m]; simpl.
    + constructor.
    + constructor; auto.
    + apply (interleaved_weaken (e + 1)); [apply IH | lia].
Qed.

Lemma interleaved_nth lo sb se :
  interleaved lo sb se ->
  forall i, (i < length sb)%nat ->
    lo <= nth i sb 0 /\ nth i sb 0 < nth i se 0 /\
    ((S i < length sb)%nat -> nth i se 0 < nth (S i) sb 0).
Proof.
  induction 1 as [lo | lo b e sb se Hb He H IH]; intros i Hi; simpl in Hi.
  - lia.
  - destruct i as [|i].
    + simpl. repeat split; try lia.
      intros Hlen. inversion H; subst; simpl in *; lia.
    + assert (Hi' : (i < length sb)%nat) by lia.
      destruct (IH i Hi') as (H1 & H2 & H3).
      change (nth (S i) (b :: sb) 0) with (nth i sb 0).
      change (nth (S i) (e :: se) 0) with (nth i se 0).
      change (nth (S (S i)) (b :: sb) 0) with (nth (S i) sb 0).
      repeat split; try lia.
      intros Hlen. apply H3. simpl in Hlen. lia.
Qed.

(** ** Lines 43-50: pairing the edges *)

Lemma select_gt_squeeze (F : list Z) (b0 : Z) :
  select_gt (squeeze_column F) b0 = filter (fun x => b0 <? x) F.
Proof.
  destruct F as [|x [|y F]]; reflexivity.
Qed.

Lemma pair_edges_two (events : list Z) (b0 b1 : Z) (R : list Z) :
  rising events = b0 :: b1 :: R ->
  pair_edges events =
    Ok (firstn (length (filter (fun x => b0 <? x) (falling events))) (b0 :: b1 :: R),
        filter (fun x => b0 <? x) (falling events)).
Proof.
  intros HR. unfold pair_edges. rewrite HR.
  cbn [squeeze_column first_item bind]. rewrite select_gt_squeeze. reflexivity.
Qed.

Lemma pair_edges_few (events : list Z) :
  (length (rising events) < 2)%nat -> is_IndexError (pair_edges events).
Proof.
  intros H. unfold pair_edges, is_IndexError.
  destruct (rising events) as [|b0 [|b1 R]]; simpl in *; try lia; eexists; reflexivity.
Qed.

Lemma pair_edges_inv (events : list Z) (sb se : list Z) :
  pair_edges events = Ok (sb, se) ->
  exists b0 b1 R, rising events = b0 :: b1 :: R.
Proof.
  intros H. destruct (rising events) as [|b0 [|b1 R]] eqn:HR.
  - unfold pair_edges in H. rewrite HR in H. discriminate.
  - unfold pair_edges in H. rewrite HR in H. discriminate.
  - eauto.
Qed.

Lemma zip_sub_length (a b : list Z) :
  length a = length b -> length (zip_sub a b) = length a.
Proof.
  revert b. induction a as [|x a IH]; intros [|y b] H; simpl in *; try lia.
  rewrite IH; lia.
Qed.

(** ** step_ID *)

(** The value of [step_ID] when it gets as far as pairing the edges. *)
Lemma step_ID_value (force : array2) (threshold Fs min_step max_step : Q)
    (vertical : list sample) (b0 b1 : Z) (R : list Z) :
  Qlt_bool min_step max_step = true ->
  col 2 force = Ok vertical ->
  rising (diff (binarize vertical threshold)) = b0 :: b1 :: R ->
  let F := filter (fun x => b0 <? x) (falling (diff (binarize vertical threshold))) in
  let B := firstn (length F) (b0 :: b1 :: R) in
  let good_step := map (good min_step max_step) (zip_sub F B) in
  interleaved 0 B F /\
  step_ID force threshold Fs min_step max_step =
    Ok (compress good_step B, compress good_step F).
Proof.
  intros Hlt Hcol HR F B good_step.
  pose proof (events_alternate vertical threshold) as Halt.
  rewrite HR in Halt. apply alternate_select in Halt. destruct Halt as [Hil _].
  fold F in Hil. fold B in Hil.
  split; [exact Hil|].
  pose proof (interleaved_length _ _ _ Hil) as Hlen.
  unfold step_ID. rewrite Hlt, Hcol. cbn [bind].
  rewrite (pair_edges_two _ _ _ _ HR). cbn [bind]. fold F. fold B.
  unfold np_sub. rewrite <- Hlen, Nat.eqb_refl. cbn [bind].
  fold good_step.
  assert (Hg : length good_step = length B).
  { unfold good_step. rewrite length_map, zip_sub_length; congruence. }
  unfold select. rewrite Hg, Nat.eqb_refl. cbn [bind].
  rewrite Hlen, Nat.eqb_refl. reflexivity.
Qed.

Lemma step_ID_inv (force : array2) (threshold Fs min_step max_step : Q)
    (begins ends : list Z) :
  step_ID force threshold Fs min_step max_step = Ok (begins, ends) ->
  Qlt_bool min_step max_step = true /\
  exists vertical b0 b1 R,
    col 2 force = Ok vertical /\
    rising (diff (binarize vertical threshold)) = b0 :: b1 :: R.
Proof.
  unfold step_ID. intros H.
  destruct (Qlt_bool min_step max_step); [| discriminate].
  split; [reflexivity|].
  destruct (col 2 force) as [vertical | |]; try discriminate.
  cbn [bind] in H.
  destruct (pair_edges (diff (binarize vertical threshold))) as [[sb se]| |] eqn:Hp;
    try discriminate.
  apply pair_edges_inv in Hp. destruct Hp as (b0 & b1 & R & HR).
  exists vertical, b0, b1, R. split; [reflexivity | exact HR].
Qed.

(** With two rising edges or more, and [min_step < max_step], [step_ID]
    returns. *)
Lemma step_ID_returns (force : array2) (threshold Fs min_step max_step : Q)
    (vertical : list sample) :
  (min_step < max_step)%Q ->
  col 2 force = Ok vertical ->
  (2 <= length (rising (diff (binarize vertical threshold))))%nat ->
  exists begins ends,
    step_ID force threshold Fs min_step max_step = Ok (begins, ends).
Proof.
  intros Hlt Hcol Hlen.
  assert (Hb : Qlt_bool min_step max_step = true).
  { unfold Qlt_bool. apply negb_true_iff.
    destruct (Qle_bool max_step min_step) eqn:Hle; [| reflexivity].
    apply Qle_bool_iff in Hle. exfalso. exact (Qlt_not_le _ _ Hlt Hle). }
  destruct (rising (diff (binarize vertical threshold))) as [|b0 [|b1 R]] eqn:HR;
    simpl in Hlen; try lia.
  destruct (step_ID_value force threshold Fs _ _ _ _ _ _ Hb Hcol HR) as [_ Hval].
  eauto.
Qed.

(** What [step_ID] returns is interleaved, from index 0 on. *)
Lemma step_ID_interleaved (force : array2) (threshold Fs min_step max_step : Q)
    (begins ends : list Z) :
  step_ID force threshold Fs min_step max_step = Ok (begins, ends) ->
  interleaved 0 begins ends.
Proof.
  intros H.
  destruct (step_ID_inv _ _ _ _ _ _ _ H) as (Hlt & vertical & b0 & b1 & R & Hcol & HR).
  destruct (step_ID_value force threshold Fs _ _ _ _ _ _ Hlt Hcol HR) as [Hil Hval].
  rewrite Hval in H. injection H as Hb He.
  rewrite <- Hb, <- He. apply interleaved_compress. exact Hil.
Qed.

(** C2. Whenever [step_ID] returns, with [min_step < max_step], the begin and
    the end indices are as many, and [begins[i] < ends[i] < begins[i+1]] for
    every valid [i]; both sequences are strictly increasing. *)
Theorem step_ID_pairing (force : array2) (threshold Fs min_step max_step : Q)
    (begins ends : list Z) :
  (min_step < max_step)%Q ->
  step_ID force threshold Fs min_step max_step = Ok (begins, ends) ->
  length begins = length ends /\
  forall i, (i < length begins)%nat ->
    nth i begins 0 < nth i ends 0 /\
    ((S i < length begins)%nat ->
       nth i ends 0 < nth (S i) begins 0 /\
       nth i begins 0 < nth (S i) begins 0 /\
       nth i ends 0 < nth (S i) ends 0).
Proof.
  intros _ H. apply step_ID_interleaved in H.
  split; [exact (interleaved_length _ _ _ H)|].
  intros i Hi.
  destruct (interleaved_nth _ _ _ H i Hi) as (H1 & H2 & H3).
  split; [exact H2|]. intros HS.
  destruct (interleaved_nth _ _ _ H (S i) HS) as (H1' & H2' & _).
  specialize (H3 HS). lia.
Qed.

Lemma step_ID_pairing_trial :
  length [0; 6; 12; 18] = length [2; 8; 14; 20] /\
  forall i, (i < length [0; 6; 12; 18])%nat ->
    nth i [0; 6; 12; 18] 0 < nth i [2; 8; 14; 20] 0 /\
    ((S i < length [0; 6; 12; 18])%nat ->
       nth i [2; 8; 14; 20] 0 < nth (S i) [0; 6; 12; 18] 0 /\
       nth i [0; 6; 12; 18] 0 < nth (S i) [0; 6; 12; 18] 0 /\
       nth i [2; 8; 14; 20] 0 < nth (S i) [2; 8; 14; 20] 0).
Proof.
  apply (step_ID_pairing trial 7 10 1 4).
  - reflexivity.
  - vm_compute. reflexivity.
Defined.

(** C3. With [min_step >= max_step], [step_ID] raises its error whatever the
    signal, the threshold and the sampling rate are: nothing is computed on
    the signal. *)
Theorem step_ID_bad_bounds (force : array2) (threshold Fs min_step max_step : Q) :
  (max_step <= min_step)%Q ->
  step_ID force threshold Fs min_step max_step = Raise (IndexError no_separation).
Proof.
  intros H. unfold step_ID, Qlt_bool.
  apply Qle_bool_iff in H. rewrite H. reflexivity.
Qed.

Lemma step_ID_bad_bounds_trial :
  step_ID trial 7 10 4 4 = Raise (IndexError no_separation).
Proof.
  apply (step_ID_bad_bounds trial 7 10 4 4). discriminate.
Defined.



(** C10. With [min_step < max_step] and fewer than two rising edges in the
    binarized vertical channel, [step_ID] raises an [IndexError]; it returns
    nothing. *)
Theorem step_ID_few_rising_edges (force : array2) (threshold Fs min_step max_step : Q)
    (vertical : list sample) :
  (min_step < max_step)%Q ->
  col 2 force = Ok vertical ->
  (length (rising (diff (binarize vertical threshold))) < 2)%nat ->
  is_IndexError (step_ID force threshold Fs min_step max_step).
Proof.
  intros _ Hcol Hfew. unfold step_ID.
  destruct (Qlt_bool min_step max_step); [| eexists; reflexivity].
  rewrite Hcol. cbn [bind].
  destruct (pair_edges_few _ Hfew) as [msg ->]. exists msg. reflexivity.
Qed.

Lemma step_ID_one_rising_edge :
  is_IndexError (step_ID (signal [0; 0; 9; 9; 0; 0]) 7 10 1 4).
Proof.
  apply (step_ID_few_rising_edges (signal [0; 0; 9; 9; 0; 0]) 7 10 1 4
           [Val 0; Val 0; Val 9; Val 9; Val 0; Val 0]).
  - reflexivity.
  - reflexivity.
  - vm_compute. lia.
Defined.

(** A signal that never goes above the threshold has no rising edge. *)
Lemma rising_never_above (vertical : list sample) (threshold : Q) :
  Forall (fun v => gt v threshold = false) vertical ->
  rising (diff (binarize vertical threshold)) = [].
Proof.
  intros H. unfold rising, nonzero. generalize 0 as i.
  destruct H as [|v vs Hv Hvs]; [reflexivity|].
  revert v Hv. induction Hvs as [|w ws Hw Hws IH]; intros v Hv i; [reflexivity|].
  change (diff (binarize (v :: w :: ws) threshold))
    with ((astype_int (gt w threshold) - astype_int (gt v threshold))
            :: diff (binarize (w :: ws) threshold)).
  rewrite Hv, Hw. cbn [map nonzero_from astype_int Z.sub Z.eqb Z.add Z.opp].
  apply IH. exact Hw.
Qed.


(** ** The threshold *)

Lemma gt_antitone (v : sample) (t1 t2 : Q) :
  (t1 <= t2)%Q -> gt v t2 = true -> gt v t1 = true.
Proof.
  intros Hle. destruct v as [q|]; cbn [gt]; [| discriminate].
  rewrite !negb_true_iff. intros H2.
  destruct (Qle_bool q t1) eqn:H1; [| reflexivity].
  apply Qle_bool_iff in H1.
  assert (H : Qle_bool q t2 = true).
  { apply Qle_bool_iff. exact (Qle_trans _ _ _ H1 Hle). }
  congruence.
Qed.

(** C9, as the code has it. Raising the threshold from [t1] to [t2] leaves
    every sample that is above [t2] above [t1], so the number of samples
    above the threshold does not grow. *)
Theorem binarize_antitone (vertical : list sample) (t1 t2 : Q) :
  (t1 <= t2)%Q ->
  Forall2 Z.le (binarize vertical t2) (binarize vertical t1) /\
  count_above vertical t2 <= count_above vertical t1.
Proof.
  intros Hle. unfold count_above.
  induction vertical as [|v vs [IH1 IH2]]; [split; [constructor | reflexivity]|].
  assert (Hv : astype_int (gt v t2) <= astype_int (gt v t1)).
  { destruct (gt v t2) eqn:H2.
    - rewrite (gt_antitone v t1 t2 Hle H2). reflexivity.
    - destruct (gt v t1); cbn [astype_int]; lia. }
  split.
  - constructor; assumption.
  - cbn [binarize map fold_right]. unfold binarize in IH2. lia.
Qed.

Lemma binarize_antitone_dipped :
  Forall2 Z.le
    (binarize [Val 0; Val 5; Val 3; Val 5; Val 0; Val 5; Val 3; Val 5; Val 0] 4)
    (binarize [Val 0; Val 5; Val 3; Val 5; Val 0; Val 5; Val 3; Val 5; Val 0] 1) /\
  count_above [Val 0; Val 5; Val 3; Val 5; Val 0; Val 5; Val 3; Val 5; Val 0] 4 <=
  count_above [Val 0; Val 5; Val 3; Val 5; Val 0; Val 5; Val 3; Val 5; Val 0] 1.
Proof.
  apply (binarize_antitone
    [Val 0; Val 5; Val 3; Val 5; Val 0; Val 5; Val 3; Val 5; Val 0] 1 4).
  discriminate.
Defined.

(** C9 fails as stated: on [dipped], two stance phases are detected with the
    threshold 1 and four with the threshold 4, each of them above its
    threshold from its first sample to its last. *)
Lemma more_phases_at_higher_threshold :
  exists vertical begins1 ends1 begins2 ends2,
    col 2 dipped = Ok vertical /\
    (1 <= 4)%Q /\
    step_ID dipped 1 10 1 3 = Ok (begins1, ends1) /\
    step_ID dipped 4 10 1 3 = Ok (begins2, ends2) /\
    forallb (fun p => above_throughout vertical 1 (fst p) (snd p))
      (combine begins1 ends1) = true /\
    forallb (fun p => above_throughout vertical 4 (fst p) (snd p))
      (combine begins2 ends2) = true /\
    (length begins1 < length begins2)%nat.
Proof.
  exists [Val 0; Val 5; Val 3; Val 5; Val 0; Val 5; Val 3; Val 5; Val 0],
    [0; 4], [3; 7], [0; 2; 4; 6], [1; 3; 5; 7].
  repeat split; try (vm_compute; reflexivity).
  - discriminate.
  - simpl. lia.
Qed.

(** ** readcheck_input *)

(** C8. A table whose number of columns is not 3 makes [readcheck_input], and
    with it [detrend_force] before it filters or segments anything, raise the
    [ValueError] whose message begins with the quoted text; a table of 3
    columns is returned as it is. *)
Theorem readcheck_input_columns (lowpass : Q -> Q -> array2 -> result array2)
    (force_imported : array2) (Fs Fc min_step step_threshold : Q)
    (clicks : list (Z * Z)) :
  (width force_imported <> 3%nat ->
     readcheck_input force_imported = Raise (ValueError bad_columns) /\
     detrend_force lowpass force_imported Fs Fc min_step step_threshold clicks =
       Raise (ValueError bad_columns)) /\
  (width force_imported = 3%nat ->
     readcheck_input force_imported = Ok force_imported) /\
  prefix "force data must be Nx3 columns" bad_columns = true.
Proof.
  split; [| split; [| reflexivity]].
  - intros H. apply Nat.eqb_neq in H.
    unfold detrend_force, readcheck_input. rewrite H. split; reflexivity.
  - intros H. unfold readcheck_input. rewrite H. reflexivity.
Qed.

Lemma readcheck_input_four_columns :
  readcheck_input (Array2 4 [[Val 1; Val 2; Val 3; Val 4]]) =
    Raise (ValueError bad_columns) /\
  detrend_force (fun _ _ force => Ok force) (Array2 4 [[Val 1; Val 2; Val 3; Val 4]])
    1000 30 40 200 [] = Raise (ValueError bad_columns).
Proof.
  apply (readcheck_input_columns (fun _ _ force => Ok force)
           (Array2 4 [[Val 1; Val 2; Val 3; Val 4]]) 1000 30 40 200 []).
  discriminate.
Defined.


(** ** Indexing, loops and slices *)

Lemma getitem_nat {A : Type} (l : list A) (i : nat) (a : A) :
  getitem l (Z.of_nat i) = Ok a <-> nth_error l i = Some a.
Proof.
  unfold getitem, len.
  replace (Z.of_nat i <? 0) with false by (symmetry; apply Z.ltb_ge; lia).
  replace (0 <=? Z.of_nat i) with true by (symmetry; apply Z.leb_le; lia).
  rewrite Nat2Z.id. cbn [andb].
  destruct (Z.of_nat i <? Z.of_nat (length l)) eqn:Hlt.
  - destruct (nth_error l i); split; intros H; try discriminate; congruence.
  - apply Z.ltb_ge in Hlt. split; [discriminate|].
    intros H. assert (Hn : nth_error l i <> None) by congruence.
    apply nth_error_Some in Hn. lia.
Qed.

Lemma getitem_nth {A : Type} (l : list A) (i : nat) (d : A) :
  (i < length l)%nat -> getitem l (Z.of_nat i) = Ok (nth i l d).
Proof.
  intros Hi. apply getitem_nat. apply nth_error_nth'. exact Hi.
Qed.

Lemma getitem2_nth (a : array2) (i c : nat) :
  (i < length (rows a))%nat -> (c < width a)%nat ->
  getitem2 a (Z.of_nat i) c = Ok (nth c (nth i (rows a) []) NaN).
Proof.
  intros Hi Hc. unfold getitem2. rewrite (getitem_nth _ _ [] Hi). cbn [bind].
  apply Nat.ltb_lt in Hc. rewrite Hc. reflexivity.
Qed.

Lemma for_each_app {A S : Type} (body : S -> A -> result S) (l1 l2 : list A) (s : S) :
  for_each body (l1 ++ l2) s = (s' <- for_each body l1 s ;; for_each body l2 s').
Proof.
  revert s. induction l1 as [|x l1 IH]; intros s; simpl; [reflexivity|].
  destruct (body s x); simpl; auto.
Qed.

Lemma range_S (n : nat) :
  range (Z.of_nat (S n)) = range (Z.of_nat n) ++ [Z.of_nat n].
Proof.
  unfold range. rewrite !Nat2Z.id, seq_S, map_app. reflexivity.
Qed.

(** A loop over [range(n)] whose body succeeds and keeps an invariant ends
    with the invariant. *)
Lemma for_each_range_total {S : Type} (Inv : nat -> S -> Prop)
    (body : S -> Z -> result S) (n : nat) (s0 : S) :
  Inv 0%nat s0 ->
  (forall t s, (t < n)%nat -> Inv t s ->
     exists s', body s (Z.of_nat t) = Ok s' /\ Inv (Datatypes.S t) s') ->
  exists s, for_each body (range (Z.of_nat n)) s0 = Ok s /\ Inv n s.
Proof.
  intros H0 Hstep. induction n as [|n IH].
  - exists s0. split; [reflexivity | exact H0].
  - destruct IH as (s1 & H1 & I1).
    { intros t s Ht. apply Hstep. lia. }
    destruct (Hstep n s1 (Nat.lt_succ_diag_r n) I1) as (s2 & H2 & I2).
    exists s2. split; [| exact I2].
    rewrite range_S, for_each_app, H1. cbn [bind for_each]. rewrite H2. reflexivity.
Qed.

Lemma collect_map {B : Type} (f : Z -> result B) (g : nat -> B) (l : list nat) :
  (forall i, In i l -> f (Z.of_nat i) = Ok (g i)) ->
  collect f (map Z.of_nat l) = Ok (map g l).
Proof.
  induction l as [|x l IH]; intros H; simpl; [reflexivity|].
  rewrite (H x (or_introl eq_refl)). cbn [bind].
  rewrite IH by (intros i Hi; apply H; right; exact Hi). reflexivity.
Qed.

Lemma collect_range {B : Type} (f : Z -> result B) (g : nat -> B) (n : nat) :
  (forall i, (i < n)%nat -> f (Z.of_nat i) = Ok (g i)) ->
  collect f (range (Z.of_nat n)) = Ok (map g (seq 0 n)).
Proof.
  intros H. unfold range. rewrite Nat2Z.id. apply collect_map.
  intros i Hi. apply in_seq in Hi. apply H. lia.
Qed.

Lemma set_slice_length {A : Type} (a b : Z) (f : A -> A) (X Y : list A) :
  length X = length Y ->
  length (set_slice a b (map f (slice a b X)) Y) = length Y.
Proof.
  intros Hlen. unfold set_slice, slice, len. rewrite Hlen.
  set (a' := clip a (Z.of_nat (length Y))).
  set (b' := clip b (Z.of_nat (length Y))).
  assert (Ha : 0 <= a' <= Z.of_nat (length Y)) by (unfold a', clip; destruct (Z.ltb_spec a 0); lia).
  assert (Hb : 0 <= b' <= Z.of_nat (length Y)) by (unfold b', clip; destruct (Z.ltb_spec b 0); lia).
  destruct (a' <? b') eqn:Hab; [| reflexivity].
  apply Z.ltb_lt in Hab.
  rewrite !length_app, length_map, !length_firstn, !length_skipn.
  clearbody a' b'. lia.
Qed.

(** Row [j] after [Y[a:b] = f(X[a:b])], for non-negative bounds. *)
Lemma set_slice_nth {A : Type} (a b : Z) (f : A -> A) (X Y : list A) (j : nat) :
  length X = length Y -> 0 <= a -> 0 <= b ->
  nth_error (set_slice a b (map f (slice a b X)) Y) j =
    if (a <=? Z.of_nat j) && (Z.of_nat j <? b)
    then option_map f (nth_error X j)
    else nth_error Y j.
Proof.
  intros Hlen Ha Hb. unfold set_slice, slice, len, clip. rewrite Hlen.
  replace (a <? 0) with false by (symmetry; apply Z.ltb_ge; lia).
  replace (b <? 0) with false by (symmetry; apply Z.ltb_ge; lia).
  set (n := length Y) in *.
  assert (Hout : (n <= j)%nat -> option_map f (nth_error X j) = nth_error Y j).
  { intros Hj. replace (nth_error X j) with (@None A)
      by (symmetry; apply nth_error_None; lia).
    symmetry. apply nth_error_None. fold n. lia. }
  destruct (Z.min a (Z.of_nat n) <? Z.min b (Z.of_nat n)) eqn:Hab.
  - apply Z.ltb_lt in Hab.
    set (A' := Z.to_nat (Z.min a (Z.of_nat n))).
    set (B' := Z.to_nat (Z.min b (Z.of_nat n))).
    replace (Z.to_nat (Z.min b (Z.of_nat n) - Z.min a (Z.of_nat n))) with (B' - A')%nat
      by (unfold A', B'; lia).
    assert (HA : (A' <= n)%nat) by (unfold A'; lia).
    assert (HB : (A' < B' <= n)%nat) by (unfold A', B'; lia).
    assert (L1 : length (firstn A' Y) = A') by (rewrite length_firstn; fold n; lia).
    assert (L2 : length (map f (firstn (B' - A') (skipn A' X))) = (B' - A')%nat).
    { rewrite length_map, length_firstn, length_skipn. lia. }
    destruct (Nat.lt_ge_cases j A') as [Hj | Hj].
    + rewrite nth_error_app1 by lia.
      rewrite nth_error_firstn.
      replace (j <? A')%nat with true by (symmetry; apply Nat.ltb_lt; lia).
      replace (a <=? Z.of_nat j) with false by (symmetry; apply Z.leb_gt; unfold A' in Hj; lia).
      reflexivity.
    + rewrite nth_error_app2 by lia. rewrite L1.
      destruct (Nat.lt_ge_cases j B') as [Hj' | Hj'].
      * rewrite nth_error_app1 by lia.
        rewrite nth_error_map, nth_error_firstn, nth_error_skipn.
        replace (j - A' <? B' - A')%nat with true by (symmetry; apply Nat.ltb_lt; lia).
        replace (A' + (j - A'))%nat with j by lia.
        replace (a <=? Z.of_nat j) with true
          by (symmetry; apply Z.leb_le; unfold A', B' in *; lia).
        replace (Z.of_nat j <? b) with true
          by (symmetry; apply Z.ltb_lt; unfold A', B' in *; lia).
        reflexivity.
      * rewrite nth_error_app2 by lia. rewrite L2, nth_error_skipn.
        replace (B' + (j - A' - (B' - A')))%nat with j by lia.
        destruct ((a <=? Z.of_nat j) && (Z.of_nat j <? b)) eqn:Hc; [| reflexivity].
        apply andb_true_iff in Hc. destruct Hc as [Hc1 Hc2].
        apply Z.leb_le in Hc1. apply Z.ltb_lt in Hc2.
        symmetry. apply Hout. unfold B' in Hj'. lia.
  - apply Z.ltb_ge in Hab.
    destruct ((a <=? Z.of_nat j) && (Z.of_nat j <? b)) eqn:Hc; [| reflexivity].
    apply andb_true_iff in Hc. destruct Hc as [Hc1 Hc2].
    apply Z.leb_le in Hc1. apply Z.ltb_lt in Hc2.
    symmetry. apply Hout. lia.
Qed.

Lemma slice_indices {A : Type} (l : list A) (d : A) (lo hi : Z) :
  0 <= lo -> lo <= hi -> hi <= len l ->
  slice lo hi l = map (fun j => nth (Z.to_nat j) l d) (indices lo hi).
Proof.
  intros H0 Hle Hn. unfold slice, clip, indices.
  replace (lo <? 0) with false by (symmetry; apply Z.ltb_ge; lia).
  replace (hi <? 0) with false by (symmetry; apply Z.ltb_ge; lia).
  rewrite !Z.min_l by lia.
  apply nth_error_ext. intros k.
  rewrite nth_error_firstn, nth_error_skipn, !nth_error_map, nth_error_seq.
  destruct (k <? Z.to_nat (hi - lo))%nat eqn:Hk; [| reflexivity].
  apply Nat.ltb_lt in Hk. cbn [option_map].
  replace (Z.to_nat (lo + Z.of_nat (0 + k))) with (Z.to_nat lo + k)%nat by lia.
  apply nth_error_nth'. unfold len in Hn. lia.
Qed.

Lemma nth_map_default {A B : Type} (f : A -> B) (l : list A) (n : nat) (d : A) (d' : B) :
  f d = d' -> nth n (map f l) d' = f (nth n l d).
Proof. intros <-. apply map_nth. Qed.

Lemma nth_map_seq {B : Type} (g : nat -> B) (n i : nat) (d : B) :
  (i < n)%nat -> nth i (map g (seq 0 n)) d = g i.
Proof.
  intros Hi. apply nth_error_nth.
  rewrite nth_error_map, nth_error_seq.
  apply Nat.ltb_lt in Hi. rewrite Hi. reflexivity.
Qed.

Lemma nth_zip_sub (a b : list Z) (i : nat) :
  (i < length a)%nat -> (i < length b)%nat ->
  nth i (zip_sub a b) 0 = nth i a 0 - nth i b 0.
Proof.
  revert b i. induction a as [|x a IH]; intros [|y b] [|i] Ha Hb; simpl in *; try lia.
  apply IH; lia.
Qed.

Lemma nth_tl {A : Type} (l : list A) (i : nat) (d : A) :
  nth i (tl l) d = nth (S i) l d.
Proof. destruct l; destruct i; reflexivity. Qed.

Lemma nth_removelast {A : Type} (l : list A) (i : nat) (d : A) :
  (S i < length l)%nat -> nth i (removelast l) d = nth i l d.
Proof.
  intros Hi. rewrite removelast_firstn_len, nth_firstn.
  replace (i <? pred (length l))%nat with true by (symmetry; apply Nat.ltb_lt; lia).
  reflexivity.
Qed.

Lemma length_removelast {A : Type} (l : list A) :
  length (removelast l) = (length l - 1)%nat.
Proof. rewrite removelast_firstn_len, length_firstn. lia. Qed.

Lemma ascending_head (a : Z) (l : list Z) :
  ascending (a :: l) -> Forall (fun x => a <= x) l.
Proof.
  revert a. induction l as [|b l IH]; intros a H; [constructor|].
  destruct H as [Hab H]. constructor; [exact Hab|].
  eapply Forall_impl; [| exact (IH b H)]. simpl. intros. lia.
Qed.

Lemma ascending_nth (l : list Z) :
  ascending l ->
  forall i k, (i <= k < length l)%nat -> nth i l 0 <= nth k l 0.
Proof.
  induction l as [|a l IH]; intros H i k Hik; simpl in Hik; [lia|].
  assert (Hl : ascending l) by (destruct l; [exact I | exact (proj2 H)]).
  destruct i as [|i], k as [|k]; try lia.
  - pose proof (ascending_head a l H) as Hall.
    rewrite Forall_forall in Hall. cbn [nth]. apply Hall. apply nth_In. lia.
  - cbn [nth]. apply IH; [exact Hl | lia].
Qed.

Lemma interleaved_ascending lo sb se :
  interleaved lo sb se -> ascending sb.
Proof.
  induction 1 as [lo | lo b e sb se Hb He H IH]; [exact I|].
  destruct sb as [|b' sb']; [exact I|].
  split; [| exact IH]. inversion H; subst. lia.
Qed.


(** ** trim_aerial_phases *)

Lemma aerial_lengths (begin end_ : list Z) (i : nat) :
  length begin = length end_ -> (S i < length begin)%nat ->
  nth i (zip_sub (tl begin) (removelast end_)) 0 = aerial_length begin end_ i.
Proof.
  intros Hlen Hi. unfold aerial_length.
  rewrite nth_zip_sub, nth_tl, nth_removelast; try lia.
  - rewrite length_tl. lia.
  - rewrite length_removelast. lia.
Qed.

(** The check of lines 137-142: a trim passes when no aerial phase is shorter
    than twice the trim, and raises the error otherwise. *)
Lemma check_trim_bound (begin end_ : list Z) (trim : Z) :
  length begin = length end_ ->
  (check_trim begin end_ trim = Ok trim /\
   forall i, (S i < length begin)%nat -> 2 * trim <= aerial_length begin end_ i) \/
  (check_trim begin end_ trim = Raise (IndexError trim_too_long) /\
   exists i, (S i < length begin)%nat /\ aerial_length begin end_ i < 2 * trim).
Proof.
  intros Hlen. unfold check_trim, np_sub.
  assert (Hl : length (tl begin) = length (removelast end_)).
  { rewrite length_tl, length_removelast. lia. }
  rewrite Hl, Nat.eqb_refl. cbn [bind].
  assert (HL : length (zip_sub (tl begin) (removelast end_)) = (length begin - 1)%nat).
  { rewrite zip_sub_length by exact Hl. apply length_tl. }
  destruct (existsb (fun l => l <? trim * 2) (zip_sub (tl begin) (removelast end_))) eqn:He.
  - right. split; [reflexivity|].
    apply existsb_exists in He. destruct He as (x & Hin & Hx).
    apply (In_nth _ _ 0) in Hin. destruct Hin as (i & Hi & Hnth).
    exists i. split; [lia|].
    rewrite <- (aerial_lengths begin end_ i Hlen) by lia.
    rewrite Hnth. apply Z.ltb_lt in Hx. lia.
  - left. split; [reflexivity|]. intros i Hi.
    assert (Hi' : (i < length (zip_sub (tl begin) (removelast end_)))%nat) by lia.
    pose proof (existsb_nth _ _ 0 Hi' He) as Hf. cbv beta in Hf.
    rewrite (aerial_lengths begin end_ i Hlen Hi) in Hf.
    apply Z.ltb_ge in Hf. lia.
Qed.

Lemma round_half_nonneg (x : Z) : 0 <= x -> 0 <= round_half x.
Proof.
  intros Hx. unfold round_half.
  pose proof (Z.div_pos x 2 Hx ltac:(lia)).
  destruct (Z.even x); [lia|]. destruct (Z.even (x / 2)); lia.
Qed.

Lemma ask_trim_nonneg (start_a end_a : list bool) (clicks : list (Z * Z)) (trim : Z) :
  ask_trim start_a end_a clicks = Ok trim -> 0 <= trim.
Proof.
  induction clicks as [|[p0 p1] clicks IH]; cbn [ask_trim]; [discriminate|].
  destruct (getitem (nonzero start_a) 0) as [s| |]; cbn [bind]; try discriminate.
  destruct (Z.ltb_spec p0 s) as [|H0]; cbn [orb]; [exact IH|].
  destruct (Z.ltb_spec p1 s) as [|H1]; cbn [orb]; [exact IH|].
  destruct (getitem (nonzero end_a) 0) as [e| |]; cbn [bind]; try discriminate.
  destruct (Z.ltb_spec e p0) as [|H2]; cbn [orb]; [exact IH|].
  destruct (Z.ltb_spec e p1) as [|H3]; cbn [orb]; [exact IH|].
  destruct (Z.ltb_spec p1 p0) as [|H4]; [exact IH|].
  intros H. injection H as <-. apply round_half_nonneg. lia.
Qed.

Lemma check_trim_same (begin end_ : list Z) (t trim : Z) :
  check_trim begin end_ t = Ok trim -> trim = t.
Proof.
  unfold check_trim. destruct (np_sub _ _); cbn [bind]; try discriminate.
  destruct (existsb _ _); [discriminate|]. congruence.
Qed.

(** An accepted trim is a non-negative one that passed the check of its
    length. *)
Lemma trim_aerial_phases_accepts (force : array2) (begin end_ : list Z)
    (clicks : list (Z * Z)) (trim : Z) :
  trim_aerial_phases force begin end_ clicks = Ok trim ->
  0 <= trim /\ check_trim begin end_ trim = Ok trim.
Proof.
  unfold trim_aerial_phases.
  destruct (getitem begin 0); cbn [bind]; try discriminate.
  destruct (getitem end_ 1); cbn [bind]; try discriminate.
  destruct (col 2 force); cbn [bind]; try discriminate.
  destruct (getitem end_ 0); cbn [bind]; try discriminate.
  destruct (getitem2 force _ 2); cbn [bind]; try discriminate.
  destruct (getitem begin 1); cbn [bind]; try discriminate.
  destruct (getitem2 force _ 2); cbn [bind]; try discriminate.
  destruct (ask_trim _ _ clicks) as [t| |] eqn:Ht; cbn [bind]; try discriminate.
  intros H. pose proof (check_trim_same _ _ _ _ H) as ->.
  split; [exact (ask_trim_nonneg _ _ _ _ Ht) | exact H].
Qed.

(** C4, on [uneven]: two clicks, two samples inside the first aerial phase
    on either side, give a trim of 2; the second aerial phase is 4 samples
    long, twice the trim and no more, and the trim is accepted; the trimmed
    second aerial phase is empty and its means are NaN. *)
Theorem trim_of_half_phase_accepted :
  step_ID uneven 7 10 1 4 = Ok (uneven_begins, uneven_ends) /\
  trim_aerial_phases uneven uneven_begins uneven_ends [(4, 6)] = Ok 2 /\
  aerial_length uneven_begins uneven_ends 1 = 2 * 2 /\
  slice (nth 1 uneven_ends 0 + 2) (nth 2 uneven_begins 0 - 2) (rows uneven) = [] /\
  aerial_means_of uneven (removelast uneven_ends) (tl uneven_begins) 2 =
    Ok (Array2 3 [[Val 1; Val 2; Val (5 # 2)];
                  [NaN; NaN; NaN];
                  [Val 1; Val 2; Val (5 # 2)]]) /\
  detrend uneven uneven_begins
    (Array2 3 [[Val 1; Val 2; Val (5 # 2)];
               [NaN; NaN; NaN];
               [Val 1; Val 2; Val (5 # 2)]]) =
    Ok (Array2 3 (repeat [NaN; NaN; NaN] 14 ++ repeat [zero; zero; zero] 12)).
Proof.
  repeat split; vm_compute; reflexivity.
Qed.

(** ** The aerial means *)

Lemma sum_finite (qs : list Q) (a : Q) :
  exists s, fold_left add (map Val qs) (Val a) = Val s /\
            (s == a + fold_right Qplus 0%Q qs)%Q.
Proof.
  revert a. induction qs as [|q qs IH]; intros a; cbn [map fold_left fold_right].
  - exists a. split; [reflexivity | ring].
  - destruct (IH (Qred (a + q))) as (s & Hs & Heq).
    exists s. split; [exact Hs|]. rewrite Heq, Qred_correct. ring.
Qed.

(** On finite values the arithmetic mean is the rational sum over the
    count. *)
Lemma arithmetic_mean_finite (qs : list Q) :
  same (arithmetic_mean (map Val qs))
       (Val (fold_right Qplus 0%Q qs / inject_Z (len qs))).
Proof.
  unfold arithmetic_mean, zero.
  destruct (sum_finite qs 0%Q) as (s & -> & Heq).
  cbn [div lift2 same]. rewrite Qred_correct, Heq.
  unfold len. rewrite length_map. rewrite Qplus_0_l. reflexivity.
Qed.

Lemma mean_of_value (force : array2) (lo hi : Z) (c : nat) :
  (c < width force)%nat -> 0 <= lo -> lo < hi -> hi <= len (rows force) ->
  mean_of force lo hi c = Ok (arithmetic_mean (samples_between force c lo hi)).
Proof.
  intros Hc H0 Hlt Hn. unfold mean_of, col.
  apply Nat.ltb_lt in Hc. rewrite Hc. cbn [bind]. f_equal.
  rewrite (slice_indices _ NaN lo hi); [| lia | lia | unfold len in *; rewrite length_map; exact Hn].
  assert (Heq : map (fun j => nth (Z.to_nat j) (map (fun r => nth c r NaN) (rows force)) NaN)
                  (indices lo hi) = samples_between force c lo hi).
  { unfold samples_between. apply map_ext. intros j.
    apply (nth_map_default (fun r => nth c r NaN)). destruct c; reflexivity. }
  rewrite Heq. unfold np_mean, arithmetic_mean.
  destruct (samples_between force c lo hi) eqn:Hs; [| reflexivity].
  apply (f_equal (@length sample)) in Hs.
  unfold samples_between, indices in Hs. rewrite !length_map, length_seq in Hs.
  simpl in Hs. lia.
Qed.

Lemma mean_of_ok (force : array2) (lo hi : Z) (c : nat) :
  (c < width force)%nat -> exists m, mean_of force lo hi c = Ok m.
Proof.
  intros Hc. unfold mean_of, col. apply Nat.ltb_lt in Hc. rewrite Hc.
  eexists. reflexivity.
Qed.

Lemma aerial_means_of_value (force_f : array2) (ab ae : list Z) (trim : Z) :
  (2 < width force_f)%nat -> length ab = length ae ->
  aerial_means_of force_f ab ae trim =
    Ok (Array2 3 (map (means_row force_f ab ae trim) (seq 0 (length ab)))).
Proof.
  intros Hw Hlen. unfold aerial_means_of, len.
  rewrite (collect_range _ (means_row force_f ab ae trim)); [reflexivity|].
  intros i Hi.
  rewrite (getitem_nth ab i 0 Hi). cbn [bind].
  rewrite (getitem_nth ae i 0) by lia. cbn [bind].
  unfold means_row. cbn [map].
  destruct (mean_of_ok force_f (nth i ab 0 + trim) (nth i ae 0 - trim) 0) as [m0 ->]; [lia|].
  destruct (mean_of_ok force_f (nth i ab 0 + trim) (nth i ae 0 - trim) 1) as [m1 ->]; [lia|].
  destruct (mean_of_ok force_f (nth i ab 0 + trim) (nth i ae 0 - trim) 2) as [m2 ->]; [lia|].
  reflexivity.
Qed.

(** C6. The loop of lines 241-245 returns one row of three means per aerial
    phase; where the trimmed interval of phase [i] is a non-empty interval of
    samples of the signal, entry [c] of row [i] is the arithmetic mean of
    axis [c] over that interval. *)
Theorem aerial_means_are_means (force_f : array2) (aerial_begins aerial_ends : list Z)
    (trim : Z) :
  (2 < width force_f)%nat ->
  length aerial_begins = length aerial_ends ->
  exists means,
    aerial_means_of force_f aerial_begins aerial_ends trim = Ok means /\
    width means = 3%nat /\
    length (rows means) = length aerial_begins /\
    forall i c, (i < length aerial_begins)%nat -> (c < 3)%nat ->
      let lo := nth i aerial_begins 0 + trim in
      let hi := nth i aerial_ends 0 - trim in
      0 <= lo -> lo < hi -> hi <= len (rows force_f) ->
      nth c (nth i (rows means) []) NaN =
        arithmetic_mean (samples_between force_f c lo hi).
Proof.
  intros Hw Hlen. eexists. split; [apply aerial_means_of_value; assumption|].
  cbn [width rows]. split; [reflexivity|]. split; [rewrite length_map, length_seq; reflexivity|].
  intros i c Hi Hc. 
  set (lo := nth i aerial_begins 0 + trim). set (hi := nth i aerial_ends 0 - trim).
  intros H0 Hlt Hn.
  rewrite nth_map_seq by exact Hi.
  unfold means_row.
  assert (Hm : forall c', (c' < 3)%nat ->
            mean_of force_f lo hi c' = Ok (arithmetic_mean (samples_between force_f c' lo hi))).
  { intros c' Hc'. apply mean_of_value; try assumption. lia. }
  fold lo. fold hi.
  destruct c as [|[|[|c]]]; try lia; cbn [map nth]; rewrite Hm by lia; reflexivity.
Qed.

Lemma aerial_means_trial :
  exists means,
    aerial_means_of trial (removelast trial_ends) (tl trial_begins) 1 = Ok means /\
    width means = 3%nat /\
    length (rows means) = length (removelast trial_ends) /\
    forall i c, (i < length (removelast trial_ends))%nat -> (c < 3)%nat ->
      let lo := nth i (removelast trial_ends) 0 + 1 in
      let hi := nth i (tl trial_begins) 0 - 1 in
      0 <= lo -> lo < hi -> hi <= len (rows trial) ->
      nth c (nth i (rows means) []) NaN =
        arithmetic_mean (samples_between trial c lo hi).
Proof.
  apply (aerial_means_are_means trial (removelast trial_ends) (tl trial_begins) 1).
  - simpl. lia.
  - reflexivity.
Defined.


(** ** The detrending loop *)

Lemma detrend_step_value (force_f : array2) (sb : list Z) (am : array2)
    (fd : list (list sample)) (t : nat) :
  (S t < length (rows am))%nat -> (2 < width am)%nat -> (S t < length sb)%nat ->
  detrend_step force_f sb am fd (Z.of_nat t) =
    Ok (set_slice (nth t sb 0) (nth (S t) sb 0)
          (minus_scalar (baseline am t)
             (slice (nth t sb 0) (nth (S t) sb 0) (rows force_f))) fd).
Proof.
  intros Ham Hw Hsb. unfold detrend_step.
  replace (Z.of_nat t + 1) with (Z.of_nat (S t)) by lia.
  rewrite (getitem2_nth am t 2) by lia. cbn [bind].
  rewrite (getitem2_nth am (S t) 2) by lia. cbn [bind].
  rewrite (getitem_nth sb t 0) by lia. cbn [bind].
  rewrite (getitem_nth sb (S t) 0) by lia. cbn [bind].
  reflexivity.
Qed.

Lemma nth_error_zeros_like (a : array2) (j : nat) :
  (j < length (rows a))%nat ->
  nth_error (zeros_like a) j = Some (repeat zero (width a)).
Proof.
  intros Hj. unfold zeros_like. apply nth_error_repeat. exact Hj.
Qed.

Lemma Forall_nth_nonneg (l : list Z) (i : nat) :
  Forall (fun b => 0 <= b) l -> 0 <= nth i l 0.
Proof.
  intros H. revert i. induction H as [|x l Hx Hl IH]; intros [|i]; simpl; try lia.
  apply IH.
Qed.

(** What the loop of lines 256-259 leaves in [force_fd], for begins that do
    not decrease. *)
Lemma detrend_loop_windows (force_f : array2) (step_begin_all : list Z) (aerial_means : array2) :
  let K := length step_begin_all in
  length (rows aerial_means) = (K - 1)%nat ->
  (2 < width aerial_means)%nat ->
  Forall (fun b => 0 <= b) step_begin_all ->
  (forall i k, (i <= k < K)%nat -> nth i step_begin_all 0 <= nth k step_begin_all 0) ->
  exists force_fd,
    detrend force_f step_begin_all aerial_means = Ok force_fd /\
    width force_fd = width force_f /\
    length (rows force_fd) = length (rows force_f) /\
    (forall i j, (i + 2 < K)%nat -> in_window step_begin_all i j ->
       nth_error (rows force_fd) j =
         option_map (map (fun x => sub x (baseline aerial_means i)))
           (nth_error (rows force_f) j)) /\
    (forall j, (j < length (rows force_f))%nat ->
       ~ (nth 0 step_begin_all 0 <= Z.of_nat j < nth (K - 2) step_begin_all 0) ->
       nth_error (rows force_fd) j = Some (repeat zero (width force_f))).
Proof.
  intros K Ham Hw Hpos Hmono.
  set (n := (K - 2)%nat).
  set (Inv := fun (t : nat) (fd : list (list sample)) =>
    length fd = length (rows force_f) /\
    (forall i j, (i < t)%nat -> in_window step_begin_all i j ->
       nth_error fd j =
         option_map (map (fun x => sub x (baseline aerial_means i)))
           (nth_error (rows force_f) j)) /\
    (forall j, (j < length (rows force_f))%nat ->
       ~ (nth 0 step_begin_all 0 <= Z.of_nat j < nth t step_begin_all 0) ->
       nth_error fd j = Some (repeat zero (width force_f)))).
  destruct (for_each_range_total Inv
              (detrend_step force_f step_begin_all aerial_means) n (zeros_like force_f))
    as (fd & Hfd & Hlen & Hwin & Hzero).
  - unfold Inv. split; [| split].
    + unfold zeros_like. apply repeat_length.
    + intros i j Hi. lia.
    + intros j Hj _. apply nth_error_zeros_like. exact Hj.
  - intros t fd Ht (Hlen & Hwin & Hzero).
    eexists. split.
    + apply detrend_step_value; unfold n in Ht; fold K; lia.
    + assert (Ha : 0 <= nth t step_begin_all 0) by (apply Forall_nth_nonneg; exact Hpos).
      assert (Hb : 0 <= nth (S t) step_begin_all 0) by (apply Forall_nth_nonneg; exact Hpos).
      unfold Inv, minus_scalar. split; [| split].
      * rewrite set_slice_length; [exact Hlen | symmetry; exact Hlen].
      * intros i j Hi Hij. rewrite set_slice_nth; [| symmetry; exact Hlen | exact Ha | exact Hb].
        destruct (Nat.eq_dec i t) as [-> | Hne].
        -- destruct Hij as [H1 H2].
           replace (nth t step_begin_all 0 <=? Z.of_nat j) with true
             by (symmetry; apply Z.leb_le; exact H1).
           replace (Z.of_nat j <? nth (S t) step_begin_all 0) with true
             by (symmetry; apply Z.ltb_lt; exact H2).
           reflexivity.
        -- assert (Hle : nth (S i) step_begin_all 0 <= nth t step_begin_all 0).
           { apply Hmono. unfold n in Ht. fold K. lia. }
           destruct Hij as [H1 H2].
           replace (nth t step_begin_all 0 <=? Z.of_nat j) with false
             by (symmetry; apply Z.leb_gt; lia).
           cbn [andb]. apply Hwin; [lia | split; assumption].
      * intros j Hj Hout.
        rewrite set_slice_nth; [| symmetry; exact Hlen | exact Ha | exact Hb].
        assert (H0t : nth 0 step_begin_all 0 <= nth t step_begin_all 0).
        { apply Hmono. unfold n in Ht. fold K. lia. }
        assert (Htt : nth t step_begin_all 0 <= nth (S t) step_begin_all 0).
        { apply Hmono. unfold n in Ht. fold K. lia. }
        replace ((nth t step_begin_all 0 <=? Z.of_nat j) &&
                 (Z.of_nat j <? nth (S t) step_begin_all 0)) with false.
        -- apply Hzero; [exact Hj | lia].
        -- symmetry. apply andb_false_iff.
           destruct (Z.leb_spec (nth t step_begin_all 0) (Z.of_nat j)); [right | left; reflexivity].
           apply Z.ltb_ge. lia.
  - exists (Array2 (width force_f) fd). split; [| split; [| split; [| split]]].
    + unfold detrend.
      replace (range (len (rows aerial_means) - 1)) with (range (Z.of_nat n))
        by (unfold range, len, n; do 2 f_equal; lia).
      rewrite Hfd. reflexivity.
    + reflexivity.
    + exact Hlen.
    + intros i j Hi. apply Hwin. unfold n. lia.
    + intros j Hj Hout. apply Hzero; [exact Hj | exact Hout].
Qed.

Lemma ascending_nonneg (l : list Z) :
  0 <= nth 0 l 0 -> ascending l -> Forall (fun b => 0 <= b) l.
Proof.
  intros H0 Hasc. apply Forall_forall. intros x Hin.
  destruct (In_nth l x 0 Hin) as (k & Hk & <-).
  pose proof (ascending_nth l Hasc 0 k ltac:(lia)). lia.
Qed.

(** C1, as the code has it. With K begins and K-1 aerial means, the loop runs
    over the steps 0 to K-3: for each of them it subtracts the average of the
    vertical components of the aerial means [i] and [i+1] from every axis of
    every sample of [[begins[i], begins[i+1])]; the samples outside
    [[begins[0], begins[K-2])] keep the zeros that [force_fd] starts with. *)
Theorem detrend_windows (force_f : array2) (begins : list Z) (aerial_means : array2) :
  let K := length begins in
  length (rows aerial_means) = (K - 1)%nat ->
  (2 < width aerial_means)%nat ->
  0 <= nth 0 begins 0 ->
  ascending begins ->
  exists force_fd,
    detrend force_f begins aerial_means = Ok force_fd /\
    width force_fd = width force_f /\
    length (rows force_fd) = length (rows force_f) /\
    (forall i j, (i + 2 < K)%nat -> in_window begins i j ->
       nth_error (rows force_fd) j =
         option_map (map (fun x => sub x (baseline aerial_means i)))
           (nth_error (rows force_f) j)) /\
    (forall j, (j < length (rows force_f))%nat ->
       ~ (nth 0 begins 0 <= Z.of_nat j < nth (K - 2) begins 0) ->
       nth_error (rows force_fd) j = Some (repeat zero (width force_f))).
Proof.
  intros K Hlen Hw H0 Hasc.
  apply detrend_loop_windows; try assumption.
  - apply ascending_nonneg; assumption.
  - apply ascending_nth. exact Hasc.
Qed.

Lemma detrend_windows_trial :
  exists force_fd,
    detrend trial trial_begins trial_means = Ok force_fd /\
    width force_fd = width trial /\
    length (rows force_fd) = length (rows trial) /\
    (forall i j, (i + 2 < length trial_begins)%nat -> in_window trial_begins i j ->
       nth_error (rows force_fd) j =
         option_map (map (fun x => sub x (baseline trial_means i)))
           (nth_error (rows trial) j)) /\
    (forall j, (j < length (rows trial))%nat ->
       ~ (nth 0 trial_begins 0 <= Z.of_nat j <
          nth (length trial_begins - 2) trial_begins 0) ->
       nth_error (rows force_fd) j = Some (repeat zero (width trial))).
Proof.
  apply (detrend_windows trial trial_begins trial_means).
  - reflexivity.
  - simpl. lia.
  - simpl. lia.
  - simpl. lia.
Defined.

Lemma sub_not_all_zero (d : sample) :
  map (fun x => sub x d) [Val 1; Val 2; Val 5] <> [zero; zero; zero].
Proof.
  destruct d as [q|]; cbn [map sub lift2]; [| discriminate].
  intros H.
  pose (value := fun s => match s with Val x => x | NaN => 0%Q end).
  assert (H1 : Qred (1 - q) = 0%Q)
    by exact (f_equal (fun l => value (nth 0 l NaN)) H).
  assert (H2 : Qred (2 - q) = 0%Q)
    by exact (f_equal (fun l => value (nth 1 l NaN)) H).
  assert (E1 : (1 - q == 0)%Q) by (rewrite <- (Qred_correct (1 - q)), H1; reflexivity).
  assert (E2 : (2 - q == 0)%Q) by (rewrite <- (Qred_correct (2 - q)), H2; reflexivity).
  assert (E : ((2 - q) - (1 - q) == 0)%Q) by (rewrite E1, E2; reflexivity).
  assert (E' : ((2 - q) - (1 - q) == 1)%Q) by ring.
  rewrite E' in E. discriminate E.
Qed.

(** C1 fails as stated: [trial] has K = 4 stance phases and 3 aerial means;
    sample 12 lies in the window of step K-2 = 2, its forces are 1, 2 and 5,
    and the detrended signal holds zeros there, which no subtraction of one
    baseline from the three axes gives. *)
Lemma detrend_last_window_untouched :
  exists force_fd aerial_means_d,
    step_ID trial 7 10 1 4 = Ok (trial_begins, trial_ends) /\
    detrend_filtered trial 10 1 7 [(3, 5)] = Ok (force_fd, trial_means, aerial_means_d) /\
    length trial_begins = 4%nat /\
    length (rows trial_means) = 3%nat /\
    in_window trial_begins 2 12 /\
    nth_error (rows trial) 12 = Some [Val 1; Val 2; Val 5] /\
    nth_error (rows force_fd) 12 = Some [zero; zero; zero] /\
    forall d, map (fun x => sub x d) [Val 1; Val 2; Val 5] <> [zero; zero; zero].
Proof.
  eexists. eexists.
  split; [vm_compute; reflexivity|].
  split; [vm_compute; reflexivity|].
  split; [reflexivity|]. split; [reflexivity|].
  split; [unfold in_window; simpl; lia|].
  split; [vm_compute; reflexivity|].
  split; [vm_compute; reflexivity|].
  exact sub_not_all_zero.
Qed.

(** ** Zero baselines *)
Lemma sub_zero (d x : sample) : same d zero -> same (sub x d) x.
Proof.
  destruct d as [q|]; [| intros []].
  destruct x as [p|]; cbn [same sub lift2 zero]; [| trivial].
  intros H. rewrite Qred_correct, H. ring.
Qed.

Lemma half_sum_zero (m0 m1 : sample) :
  same m0 zero -> same m1 zero -> same (div (add m0 m1) (Val 2)) zero.
Proof.
  destruct m0 as [p|], m1 as [q|]; cbn [same div add lift2 zero]; try tauto.
  intros Hp Hq. rewrite !Qred_correct, Hp, Hq. reflexivity.
Qed.

Lemma minus_zero_row (d : sample) (r : list sample) :
  same d zero -> Forall2 same (map (fun x => sub x d) r) r.
Proof.
  intros Hd. induction r as [|x r IH]; simpl; constructor; auto using sub_zero.
Qed.

(** C7, as the code has it. When the vertical component of every aerial mean
    is zero, every sample of a window that the loop corrects, that is of
    [[begins[i], begins[i+1])] with [i+1] below the number of aerial means
    (the steps 0 to K-3 of a trial of K stance phases), has on each axis the
    value it had in the input. *)
Theorem detrend_zero_means (force_f : array2) (step_begin_all : list Z)
    (aerial_means : array2) :
  (2 < width aerial_means)%nat ->
  (length (rows aerial_means) <= length step_begin_all)%nat ->
  Forall (fun b => 0 <= b) step_begin_all ->
  (forall i, (i < length (rows aerial_means))%nat ->
     same (vertical_mean aerial_means i) zero) ->
  exists force_fd,
    detrend force_f step_begin_all aerial_means = Ok force_fd /\
    forall i j, (S i < length (rows aerial_means))%nat ->
      in_window step_begin_all i j ->
      (j < length (rows force_f))%nat ->
      exists r r',
        nth_error (rows force_fd) j = Some r /\
        nth_error (rows force_f) j = Some r' /\
        Forall2 same r r'.
Proof.
  intros Hw Hlen Hpos Hzero.
  set (n := (length (rows aerial_means) - 1)%nat).
  set (Inv := fun (t : nat) (fd : list (list sample)) =>
    length fd = length (rows force_f) /\
    forall i j, (i < t)%nat -> in_window step_begin_all i j ->
      (j < length (rows force_f))%nat ->
      exists r r',
        nth_error fd j = Some r /\ nth_error (rows force_f) j = Some r' /\
        Forall2 same r r').
  destruct (for_each_range_total Inv
              (detrend_step force_f step_begin_all aerial_means) n (zeros_like force_f))
    as (fd & Hfd & Hl & Hwin).
  - split; [apply repeat_length | intros; lia].
  - intros t fd Ht (Hl & Hwin). unfold n in Ht.
    eexists. split; [apply detrend_step_value; lia|].
    assert (Ha : 0 <= nth t step_begin_all 0) by (apply Forall_nth_nonneg; exact Hpos).
    assert (Hb : 0 <= nth (S t) step_begin_all 0) by (apply Forall_nth_nonneg; exact Hpos).
    unfold minus_scalar. split.
    + rewrite set_slice_length; [exact Hl | symmetry; exact Hl].
    + intros i j Hi Hij Hj.
      rewrite set_slice_nth; [| symmetry; exact Hl | exact Ha | exact Hb].
      destruct ((nth t step_begin_all 0 <=? Z.of_nat j) &&
                (Z.of_nat j <? nth (S t) step_begin_all 0)) eqn:Hc.
      * destruct (nth_error (rows force_f) j) as [r'|] eqn:Hr.
        -- exists (map (fun x => sub x (baseline aerial_means t)) r'), r'.
           repeat split. apply minus_zero_row.
           apply half_sum_zero; apply Hzero; lia.
        -- apply nth_error_None in Hr. lia.
      * assert (Hit : (i < t)%nat).
        { destruct (Nat.eq_dec i t) as [-> | Hne]; [| lia].
          destruct Hij as [H1 H2].
          apply andb_false_iff in Hc. destruct Hc as [Hc | Hc].
          - apply Z.leb_gt in Hc. lia.
          - apply Z.ltb_ge in Hc. lia. }
        exact (Hwin i j Hit Hij Hj).
  - exists (Array2 (width force_f) fd). split.
    + unfold detrend.
      replace (range (len (rows aerial_means) - 1)) with (range (Z.of_nat n))
        by (unfold range, len, n; do 2 f_equal; lia).
      rewrite Hfd. reflexivity.
    + intros i j Hi. apply (Hwin i j). unfold n. lia.
Qed.

Lemma detrend_zero_means_trial :
  exists force_fd,
    detrend trial trial_begins level_means = Ok force_fd /\
    forall i j, (S i < length (rows level_means))%nat ->
      in_window trial_begins i j ->
      (j < length (rows trial))%nat ->
      exists r r',
        nth_error (rows force_fd) j = Some r /\
        nth_error (rows trial) j = Some r' /\
        Forall2 same r r'.
Proof.
  apply (detrend_zero_means trial trial_begins level_means).
  - simpl. lia.
  - simpl. lia.
  - repeat constructor; discriminate.
  - intros [|[|[|i]]] Hi; try reflexivity. simpl in Hi. lia.
Defined.

(** C7 fails as stated: [trial] has K = 4 stance phases, and sample 12 lies in
    the window of step K-2 = 2, before [begins[K-1] = 18]; with aerial means
    that are zero on every axis its forces 1, 2 and 5 come out as zeros. *)
Lemma zero_means_last_window_zeroed :
  exists force_fd,
    step_ID trial 7 10 1 4 = Ok (trial_begins, trial_ends) /\
    length trial_begins = 4%nat /\
    length (rows zero_means) = 3%nat /\
    Forall (Forall (fun m => m = zero)) (rows zero_means) /\
    detrend trial trial_begins zero_means = Ok force_fd /\
    in_window trial_begins 2 12 /\
    nth 0 trial_begins 0 <= 12 < nth 3 trial_begins 0 /\
    nth_error (rows trial) 12 = Some [Val 1; Val 2; Val 5] /\
    nth_error (rows force_fd) 12 = Some [zero; zero; zero] /\
    ~ Forall2 same [zero; zero; zero] [Val 1; Val 2; Val 5].
Proof.
  eexists.
  split; [vm_compute; reflexivity|].
  split; [reflexivity|]. split; [reflexivity|].
  split; [repeat constructor|].
  split; [vm_compute; reflexivity|].
  split; [unfold in_window; simpl; lia|].
  split; [simpl; lia|].
  split; [vm_compute; reflexivity|].
  split; [vm_compute; reflexivity|].
  intros H. inversion H as [|x y l l' Hxy Hrest]; subst.
  cbn [same zero] in Hxy. discriminate Hxy.
Qed.


(** ** The pipeline after the filter *)

Lemma detrend_filtered_inv (force_f : array2) (Fs min_step step_threshold : Q)
    (clicks : list (Z * Z)) (force_fd aerial_means : array2)
    (aerial_means_d : list sample) :
  detrend_filtered force_f Fs min_step step_threshold clicks =
    Ok (force_fd, aerial_means, aerial_means_d) ->
  exists begins ends trim,
    step_ID force_f step_threshold Fs min_step ((4 # 10) * Fs)%Q = Ok (begins, ends) /\
    trim_aerial_phases force_f begins ends clicks = Ok trim /\
    aerial_means_of force_f (removelast ends) (tl begins) trim = Ok aerial_means /\
    detrend force_f begins aerial_means = Ok force_fd /\
    aerial_means_d_of force_fd (removelast ends) (tl begins) trim = Ok aerial_means_d.
Proof.
  unfold detrend_filtered. intros H.
  destruct (step_ID _ _ _ _ _) as [[begins ends]| |] eqn:H1;
    cbn [bind] in H; try discriminate.
  destruct (trim_aerial_phases _ _ _ _) as [trim| |] eqn:H2;
    cbn [bind] in H; try discriminate.
  destruct (aerial_means_of _ _ _ _) as [am| |] eqn:H3;
    cbn [bind] in H; try discriminate.
  destruct (detrend _ _ _) as [fd| |] eqn:H4; cbn [bind] in H; try discriminate.
  destruct (aerial_means_d_of _ _ _ _) as [amd| |] eqn:H5;
    cbn [bind] in H; try discriminate.
  assert (E1 : fd = force_fd) by congruence.
  assert (E2 : am = aerial_means) by congruence.
  assert (E3 : amd = aerial_means_d) by congruence.
  subst. exists begins, ends, trim. repeat split; assumption.
Qed.

Lemma col_width (c : nat) (a : array2) (column : list sample) :
  col c a = Ok column ->
  (c < width a)%nat /\ length column = length (rows a).
Proof.
  unfold col. destruct (Nat.ltb_spec c (width a)) as [Hc|]; [| discriminate].
  intros H. injection H as <-. split; [exact Hc | apply length_map].
Qed.

(** X11. In a run of the pipeline the loop of lines 256-259 corrects the
    windows of the steps 0 to K-3 and leaves zeros elsewhere. *)
Lemma detrend_filtered_windows (force_f : array2) (Fs min_step step_threshold : Q)
    (clicks : list (Z * Z)) (force_fd aerial_means : array2)
    (aerial_means_d : list sample) :
  detrend_filtered force_f Fs min_step step_threshold clicks =
    Ok (force_fd, aerial_means, aerial_means_d) ->
  exists begins ends,
    step_ID force_f step_threshold Fs min_step ((4 # 10) * Fs)%Q = Ok (begins, ends) /\
    length (rows aerial_means) = (length begins - 1)%nat /\
    (forall i j, (i + 2 < length begins)%nat -> in_window begins i j ->
       nth_error (rows force_fd) j =
         option_map (map (fun x => sub x (baseline aerial_means i)))
           (nth_error (rows force_f) j)) /\
    (forall j, (j < length (rows force_f))%nat ->
       ~ (nth 0 begins 0 <= Z.of_nat j < nth (length begins - 2) begins 0) ->
       nth_error (rows force_fd) j = Some (repeat zero (width force_f))).
Proof.
  intros H.
  destruct (detrend_filtered_inv _ _ _ _ _ _ _ _ H)
    as (begins & ends & trim & Hsteps & _ & Hmeans & Hfd & _).
  exists begins, ends. split; [exact Hsteps|].
  pose proof (step_ID_interleaved _ _ _ _ _ _ _ Hsteps) as Hil.
  destruct (step_ID_inv _ _ _ _ _ _ _ Hsteps) as (_ & vertical & _ & _ & _ & Hcol & _).
  apply col_width in Hcol. destruct Hcol as [Hw _].
  pose proof (interleaved_length _ _ _ Hil) as Hlen.
  rewrite aerial_means_of_value in Hmeans;
    [| exact Hw | rewrite length_removelast, length_tl; lia].
  injection Hmeans as <-.
  assert (Hrows : length (rows (Array2 3
            (map (means_row force_f (removelast ends) (tl begins) trim)
               (seq 0 (length (removelast ends)))))) = (length begins - 1)%nat).
  { cbn [rows]. rewrite length_map, length_seq, length_removelast. lia. }
  split; [exact Hrows|].
  destruct (detrend_loop_windows force_f begins _ Hrows) as (fd & Hfd' & _ & _ & Hwin & Hzero).
  - cbn [width]. lia.
  - destruct (interleaved_lower _ _ _ Hil) as [Hlow _]. exact Hlow.
  - apply ascending_nth. exact (interleaved_ascending _ _ _ Hil).
  - rewrite Hfd in Hfd'. injection Hfd' as <-. split; assumption.
Qed.


(** ** Where the edges can be *)

Lemma nonzero_from_bound (i : Z) (l : list bool) :
  Forall (fun x => i <= x < i + len l) (nonzero_from i l).
Proof.
  revert i. induction l as [|b l IH]; intros i; [constructor|].
  assert (H : Forall (fun x => i <= x < i + len (b :: l)) (nonzero_from (i + 1) l)).
  { eapply Forall_impl; [| exact (IH (i + 1))]. unfold len. cbn [length]. intros x. lia. }
  cbn [nonzero_from]. destruct b; [constructor; [unfold len; cbn [length]; lia |] |]; exact H.
Qed.

Lemma diff_length (l : list Z) : length (diff l) = (length l - 1)%nat.
Proof.
  induction l as [|a [|b l] IH]; try reflexivity.
  change (diff (a :: b :: l)) with ((b - a) :: diff (b :: l)).
  cbn [length] in *. lia.
Qed.

Lemma rising_bound (events : list Z) :
  Forall (fun x => 0 <= x < len events) (rising events).
Proof.
  unfold rising, nonzero.
  eapply Forall_impl; [| apply nonzero_from_bound].
  unfold len. rewrite length_map. intros x. lia.
Qed.

Lemma Forall_compress (P : Z -> Prop) (m : list bool) (l : list Z) :
  Forall P l -> Forall P (compress m l).
Proof.
  intros H. revert m. induction H as [|x l Hx Hl IH]; intros [|[] m]; simpl;
    try constructor; auto.
Qed.

Lemma Forall_take (P : Z -> Prop) (n : nat) (l : list Z) :
  Forall P l -> Forall P (firstn n l).
Proof.
  intros H. revert n. induction H as [|x l Hx Hl IH]; intros [|n]; simpl;
    try constructor; auto.
Qed.

(** Every begin that [step_ID] returns has a sample after it. *)
Lemma step_ID_in_range (force : array2) (threshold Fs min_step max_step : Q)
    (begins ends : list Z) :
  step_ID force threshold Fs min_step max_step = Ok (begins, ends) ->
  Forall (fun b => 0 <= b < len (rows force) - 1) begins.
Proof.
  intros H.
  destruct (step_ID_inv _ _ _ _ _ _ _ H) as (Hlt & vertical & b0 & b1 & R & Hcol & HR).
  destruct (step_ID_value force threshold Fs _ _ _ _ _ _ Hlt Hcol HR) as [_ Hval].
  rewrite Hval in H. injection H as Hb _. rewrite <- Hb.
  apply Forall_compress. apply Forall_take. rewrite <- HR.
  eapply Forall_impl; [| apply rising_bound].
  apply col_width in Hcol. destruct Hcol as [_ Hcol].
  unfold len, binarize. rewrite diff_length, length_map, Hcol. intros x. lia.
Qed.

(** X12. In a run of the pipeline, the mean of every aerial phase whose
    trimmed interval is not empty is the arithmetic mean over that interval,
    on each axis. *)
Lemma detrend_filtered_means (force_f : array2) (Fs min_step step_threshold : Q)
    (clicks : list (Z * Z)) (force_fd aerial_means : array2)
    (aerial_means_d : list sample) :
  detrend_filtered force_f Fs min_step step_threshold clicks =
    Ok (force_fd, aerial_means, aerial_means_d) ->
  exists begins ends trim,
    step_ID force_f step_threshold Fs min_step ((4 # 10) * Fs)%Q = Ok (begins, ends) /\
    trim_aerial_phases force_f begins ends clicks = Ok trim /\
    forall i c, (S i < length begins)%nat -> (c < 3)%nat ->
      nth i ends 0 + trim < nth (S i) begins 0 - trim ->
      nth c (nth i (rows aerial_means) []) NaN =
        arithmetic_mean
          (samples_between force_f c (nth i ends 0 + trim) (nth (S i) begins 0 - trim)).
Proof.
  intros H.
  destruct (detrend_filtered_inv _ _ _ _ _ _ _ _ H)
    as (begins & ends & trim & Hsteps & Htrim & Hmeans & _ & _).
  exists begins, ends, trim. split; [exact Hsteps|]. split; [exact Htrim|].
  pose proof (step_ID_interleaved _ _ _ _ _ _ _ Hsteps) as Hil.
  pose proof (step_ID_in_range _ _ _ _ _ _ _ Hsteps) as Hrange.
  destruct (step_ID_inv _ _ _ _ _ _ _ Hsteps) as (_ & vertical & _ & _ & _ & Hcol & _).
  apply col_width in Hcol. destruct Hcol as [Hw _].
  pose proof (interleaved_length _ _ _ Hil) as Hlen.
  destruct (trim_aerial_phases_accepts _ _ _ _ _ Htrim) as [Hpos _].
  rewrite aerial_means_of_value in Hmeans;
    [| exact Hw | rewrite length_removelast, length_tl; lia].
  injection Hmeans as <-.
  intros i c Hi Hc Hne. cbn [rows].
  rewrite nth_map_seq by (rewrite length_removelast; lia).
  unfold means_row.
  rewrite nth_removelast by lia. rewrite nth_tl.
  assert (Hlo : 0 <= nth i ends 0 + trim).
  { destruct (interleaved_nth _ _ _ Hil i ltac:(lia)) as (H1 & H2 & _). lia. }
  assert (Hhi : nth (S i) begins 0 - trim <= len (rows force_f)).
  { rewrite Forall_forall in Hrange.
    pose proof (Hrange (nth (S i) begins 0) (nth_In _ _ Hi)). lia. }
  assert (Hm : forall c', (c' < 3)%nat ->
            mean_of force_f (nth i ends 0 + trim) (nth (S i) begins 0 - trim) c' =
              Ok (arithmetic_mean (samples_between force_f c'
                    (nth i ends 0 + trim) (nth (S i) begins 0 - trim)))).
  { intros c' Hc'. apply mean_of_value; try assumption. lia. }
  destruct c as [|[|[|c]]]; try lia; cbn [map nth]; rewrite Hm by lia; reflexivity.
Qed.


(** ** The sample at a begin index *)

Lemma nonzero_from_In (i : Z) (l : list bool) (x : Z) :
  In x (nonzero_from i l) ->
  i <= x /\ nth (Z.to_nat (x - i)) l false = true.
Proof.
  revert i. induction l as [|b l IH]; intros i Hin; [destruct Hin|].
  assert (Hrest : In x (nonzero_from (i + 1) l) ->
            i <= x /\ nth (Z.to_nat (x - i)) (b :: l) false = true).
  { intros H. destruct (IH (i + 1) H) as [Hle Hnth]. split; [lia|].
    replace (Z.to_nat (x - i)) with (S (Z.to_nat (x - (i + 1)))) by lia.
    exact Hnth. }
  cbn [nonzero_from] in Hin. destruct b.
  - destruct Hin as [<- | Hin]; [| exact (Hrest Hin)].
    split; [lia|]. replace (i - i) with 0 by lia. reflexivity.
  - exact (Hrest Hin).
Qed.

Lemma diff_nth (l : list Z) (k : nat) :
  (S k < length l)%nat -> nth k (diff l) 0 = nth (S k) l 0 - nth k l 0.
Proof.
  revert k. induction l as [|a [|b l] IH]; intros k Hk; cbn [length] in Hk; try lia.
  change (diff (a :: b :: l)) with ((b - a) :: diff (b :: l)).
  destruct k as [|k]; [reflexivity|].
  change (nth (S k) ((b - a) :: diff (b :: l)) 0) with (nth k (diff (b :: l)) 0).
  rewrite IH by (cbn [length]; lia). reflexivity.
Qed.

Lemma binarize_nth (vertical : list sample) (threshold : Q) (k : nat) :
  nth k (binarize vertical threshold) 0 =
    astype_int (gt (nth k vertical NaN) threshold).
Proof.
  unfold binarize.
  apply (nth_map_default (fun v => astype_int (gt v threshold))). reflexivity.
Qed.

(** A rising edge is the index of a sample that is not above the threshold,
    before one that is. *)
Lemma rising_edge_samples (vertical : list sample) (threshold : Q) (b : Z) :
  In b (rising (diff (binarize vertical threshold))) ->
  gt (nth (Z.to_nat b) vertical NaN) threshold = false /\
  gt (nth (S (Z.to_nat b)) vertical NaN) threshold = true.
Proof.
  intros Hin.
  pose proof (rising_bound (diff (binarize vertical threshold))) as Hb.
  rewrite Forall_forall in Hb. specialize (Hb b Hin).
  unfold rising, nonzero in Hin. apply nonzero_from_In in Hin.
  destruct Hin as [_ Hnth]. replace (b - 0) with b in Hnth by lia.
  rewrite (nth_map_default (Z.eqb 1) _ _ 0) in Hnth by reflexivity.
  apply Z.eqb_eq in Hnth.
  unfold len in Hb. rewrite diff_length in Hb.
  rewrite diff_nth, !binarize_nth in Hnth by lia.
  destruct (gt (nth (Z.to_nat b) vertical NaN) threshold),
           (gt (nth (S (Z.to_nat b)) vertical NaN) threshold);
    cbn [astype_int] in Hnth; first [split; reflexivity | lia].
Qed.

(** Every begin that [step_ID] returns is the index of a sample that is not
    above the threshold: the stance phase starts with the next sample. *)
Lemma step_ID_begin_not_above (force : array2) (threshold Fs min_step max_step : Q)
    (vertical : list sample) (begins ends : list Z) :
  col 2 force = Ok vertical ->
  step_ID force threshold Fs min_step max_step = Ok (begins, ends) ->
  Forall (fun b => gt (nth (Z.to_nat b) vertical NaN) threshold = false) begins.
Proof.
  intros Hcol H.
  destruct (step_ID_inv _ _ _ _ _ _ _ H) as (Hlt & vertical' & b0 & b1 & R & Hcol' & HR).
  assert (vertical' = vertical) by congruence. subst vertical'.
  destruct (step_ID_value force threshold Fs _ _ _ _ _ _ Hlt Hcol HR) as [_ Hval].
  rewrite Hval in H. injection H as Hb _. rewrite <- Hb.
  apply Forall_compress. apply Forall_take. rewrite <- HR.
  apply Forall_forall. intros b Hin.
  exact (proj1 (rising_edge_samples vertical threshold b Hin)).
Qed.


(** ** Runs on the test signals *)

Example trial_steps :
  step_ID trial 7 10 1 4 = Ok (trial_begins, trial_ends).
Proof. vm_compute. reflexivity. Qed.

(** A click before the end of the first stance phase and two clicks in the
    wrong order are asked again. *)
Example trial_trim :
  trim_aerial_phases trial trial_begins trial_ends [(1, 5); (5, 3); (3, 5)] = Ok 1.
Proof. vm_compute. reflexivity. Qed.

Example trial_no_click :
  trim_aerial_phases trial trial_begins trial_ends [(1, 5); (5, 3)] = Waiting.
Proof. vm_compute. reflexivity. Qed.

Example trial_aerial_means :
  aerial_means_of trial (removelast trial_ends) (tl trial_begins) 1 = Ok trial_means.
Proof. vm_compute. reflexivity. Qed.

Example trial_detrended :
  detrend_filtered trial 10 1 7 [(3, 5)] =
    Ok (Array2 3
          ([[Val (-1); Val 0; Val (-2)]; [Val (-1); Val 0; Val 6];
            [Val (-1); Val 0; Val 7]; [Val (-1); Val 0; Val (-1)];
            [Val (-1); Val 0; Val 0]; [Val (-1); Val 0; Val 1];
            [Val (-2); Val (-1); Val 1]; [Val (-2); Val (-1); Val 5];
            [Val (-2); Val (-1); Val 6]; [Val (-2); Val (-1); Val (-1)];
            [Val (-2); Val (-1); Val 0]; [Val (-2); Val (-1); Val 1]]
           ++ repeat [zero; zero; zero] 11),
        trial_means, [Val (-1 # 2); Val (-1 # 2)]).
Proof. vm_compute. reflexivity. Qed.

(** Two rising edges, and no step short enough: the result is empty. *)
Example no_valid_step :
  step_ID (signal [0; 9; 9; 9; 0; 9; 9; 9; 0]) 7 10 1 2 = Ok ([], []).
Proof. vm_compute. reflexivity. Qed.

Example flat_signal :
  step_ID (signal [0; 0; 0]) 7 10 1 4 =
    Raise (IndexError "index 0 is out of bounds for axis 0 with size 0").
Proof. vm_compute. reflexivity. Qed.

Example one_step_signal :
  step_ID (signal [0; 0; 9; 9; 0; 0]) 7 10 1 4 =
    Raise (IndexError
      "too many indices for array: array is 0-dimensional, but 1 were indexed").
Proof. vm_compute. reflexivity. Qed.

Example midstance_steps :
  step_ID midstance 7 10 1 4 = Ok ([3; 7], [5; 9]).
Proof. vm_compute. reflexivity. Qed.

(** * Further properties *)

(** ** The validated steps *)

Lemma compress_good (g : Z -> bool) (se sb : list Z) :
  length se = length sb ->
  Forall2 (fun b e => g (e - b) = true)
    (compress (map g (zip_sub se sb)) sb) (compress (map g (zip_sub se sb)) se).
Proof.
  revert sb. induction se as [|e se IH]; intros [|b sb] Hlen; simpl in Hlen; try lia.
  - constructor.
  - cbn [zip_sub map compress]. destruct (g (e - b)) eqn:Hg.
    + constructor; [exact Hg | apply IH; lia].
    + apply IH. lia.
Qed.

Lemma Forall2_nth_Z (P : Z -> Z -> Prop) (l1 l2 : list Z) :
  Forall2 P l1 l2 ->
  forall i, (i < length l1)%nat -> P (nth i l1 0) (nth i l2 0).
Proof.
  induction 1 as [|x y l1 l2 Hxy H IH]; intros i Hi; simpl in Hi; [lia|].
  destruct i as [|i]; [exact Hxy|]. apply IH. lia.
Qed.

(** X1. Every step that [step_ID] returns has a length, end less begin,
    within [min_step] and [max_step]. *)
Theorem step_ID_steps_valid (force : array2) (threshold Fs min_step max_step : Q)
    (begins ends : list Z) :
  step_ID force threshold Fs min_step max_step = Ok (begins, ends) ->
  forall i, (i < length begins)%nat ->
    (min_step <= inject_Z (nth i ends 0%Z - nth i begins 0%Z))%Q /\
    (inject_Z (nth i ends 0%Z - nth i begins 0%Z) <= max_step)%Q.
Proof.
  intros H i Hi.
  destruct (step_ID_inv _ _ _ _ _ _ _ H) as (Hlt & vertical & b0 & b1 & R & Hcol & HR).
  destruct (step_ID_value force threshold Fs _ _ _ _ _ _ Hlt Hcol HR) as [Hil Hval].
  rewrite Hval in H. injection H as Hb He.
  pose proof (compress_good (good min_step max_step) _ _
                (eq_sym (interleaved_length _ _ _ Hil))) as Hgood.
  rewrite Hb, He in Hgood.
  pose proof (Forall2_nth_Z _ _ _ Hgood i Hi) as Hg. cbv beta in Hg.
  unfold good in Hg. apply andb_true_iff in Hg. destruct Hg as [H1 H2].
  split; apply Qle_bool_iff; assumption.
Qed.

Lemma step_ID_steps_valid_trial :
  (1 <= inject_Z (nth 3 trial_ends 0%Z - nth 3 trial_begins 0%Z))%Q /\
  (inject_Z (nth 3 trial_ends 0%Z - nth 3 trial_begins 0%Z) <= 4)%Q.
Proof.
  apply (step_ID_steps_valid trial 7 10 1 4 trial_begins trial_ends).
  - vm_compute. reflexivity.
  - simpl. lia.
Defined.

(** ** Stance phases are runs above the threshold *)

Lemma runs_alternate (c : Z -> bool) up lo R F :
  alternate_runs c up lo R F -> alternate up lo R F.
Proof. induction 1; constructor; assumption. Qed.

Lemma runs_weaken (c : Z -> bool) lo lo' R F :
  alternate_runs c true lo R F -> lo' <= lo -> alternate_runs c true lo' R F.
Proof.
  intros H Hle. inversion H; subst; constructor; try assumption. lia.
Qed.

Lemma runs_extend (c : Z -> bool) lo R F :
  alternate_runs c false (lo + 1) R F -> c lo = true ->
  alternate_runs c false lo R F.
Proof.
  intros H Hc. inversion H as [| | ? f ? F1 Hle Hrun Hrest]; subst.
  - constructor.
  - constructor; [lia | | exact Hrest].
    intros j Hj. destruct (Z.eq_dec j lo) as [-> | Hne]; [exact Hc|].
    apply Hrun. lia.
Qed.

Lemma edges_runs (c : Z -> bool) (bs : list bool) : forall (x : bool) (i : Z),
  (forall k, (k < length (x :: bs))%nat -> c (i + Z.of_nat k) = nth k (x :: bs) false) ->
  alternate_runs c (negb x) i
    (nonzero_from i (map (Z.eqb 1) (diff (map astype_int (x :: bs)))))
    (nonzero_from i (map (Z.eqb (-1)) (diff (map astype_int (x :: bs))))).
Proof.
  induction bs as [|y bs IH]; intros x i Hc.
  - simpl. constructor.
  - assert (Hc' : forall k, (k < length (y :: bs))%nat ->
              c (i + 1 + Z.of_nat k) = nth k (y :: bs) false).
    { intros k Hk. replace (i + 1 + Z.of_nat k) with (i + Z.of_nat (S k)) by lia.
      apply (Hc (S k)). cbn [length] in *. lia. }
    assert (Hi : c i = x).
    { replace i with (i + Z.of_nat 0) by (simpl; lia). apply (Hc 0%nat). cbn [length]. lia. }
    specialize (IH y (i + 1) Hc').
    change (diff (map astype_int (x :: y :: bs)))
      with ((astype_int y - astype_int x) :: diff (map astype_int (y :: bs))).
    cbn [map nonzero_from].
    destruct x, y; cbn [astype_int negb Z.sub Z.eqb Z.add Z.opp Z.pos_sub] in *;
      simpl Z.eqb.
    + apply runs_extend; assumption.
    + constructor; [lia | | exact IH].
      intros j Hj. replace j with i by lia. exact Hi.
    + constructor; [lia | exact IH].
    + apply (runs_weaken c (i + 1)); [exact IH | lia].
Qed.

Lemma runs_pairs (c : Z -> bool) up lo R F :
  alternate_runs c up lo R F ->
  if up then Forall2 (run c) (firstn (length F) R) F
  else match F with
       | [] => True
       | f :: F1 => Forall2 (run c) (firstn (length F1) R) F1
       end.
Proof.
  induction 1 as [up lo | lo r R F Hle H IH | lo f R F Hle Hrun H IH].
  - destruct up; [constructor | exact I].
  - destruct F as [|f F1]; [constructor|].
    cbn [length firstn]. constructor; [| exact IH].
    inversion H as [| | ? ? ? ? _ Hrun' _]; subst.
    intros j Hj. apply Hrun'. lia.
  - exact IH.
Qed.

Lemma runs_select (c : Z -> bool) up lo b0 R F :
  alternate_runs c up lo (b0 :: R) F ->
  Forall2 (run c)
    (firstn (length (filter (fun x => b0 <? x) F)) (b0 :: R))
    (filter (fun x => b0 <? x) F).
Proof.
  intros H.
  destruct (alternate_select _ _ _ _ _ (runs_alternate _ _ _ _ _ H)) as [_ Hsel].
  destruct up.
  - rewrite Hsel. exact (runs_pairs _ _ _ _ _ H).
  - destruct Hsel as (f & _ & HF).
    pose proof (runs_pairs _ _ _ _ _ H) as Hp. cbv beta iota in Hp.
    rewrite HF in Hp. exact Hp.
Qed.

Lemma Forall2_compress (P : Z -> Z -> Prop) (sb se : list Z) :
  Forall2 P sb se -> forall m, Forall2 P (compress m sb) (compress m se).
Proof.
  induction 1 as [|b e sb se Hbe H IH]; intros m.
  - destruct m as [|[] m]; constructor.
  - destruct m as [|[] m]; simpl; [constructor | constructor; auto | apply IH].
Qed.

Lemma events_runs (vertical : list sample) (threshold : Q) :
  alternate_runs (above vertical threshold)
    (match vertical with [] => true | v :: _ => negb (gt v threshold) end) 0
    (rising (diff (binarize vertical threshold)))
    (falling (diff (binarize vertical threshold))).
Proof.
  unfold rising, falling, nonzero, binarize.
  destruct vertical as [|v vs].
  - simpl. constructor.
  - rewrite <- (map_map (fun v => gt v threshold) astype_int).
    apply (edges_runs (above (v :: vs) threshold)
             (map (fun v => gt v threshold) vs) (gt v threshold) 0).
    intros k _. unfold above. rewrite Z.add_0_l, Nat2Z.id.
    change (gt v threshold :: map (fun v0 => gt v0 threshold) vs)
      with (map (fun v0 => gt v0 threshold) (v :: vs)).
    symmetry. apply (nth_map_default (fun v0 => gt v0 threshold)). reflexivity.
Qed.

(** A falling edge is the index of a sample that is above the threshold,
    before one that is not. *)
Lemma falling_edge_samples (vertical : list sample) (threshold : Q) (e : Z) :
  In e (falling (diff (binarize vertical threshold))) ->
  0 <= e < len vertical - 1 /\
  above vertical threshold e = true /\
  above vertical threshold (e + 1) = false.
Proof.
  intros Hin. unfold falling, nonzero in Hin.
  pose proof (nonzero_from_bound 0 (map (Z.eqb (-1)) (diff (binarize vertical threshold))))
    as Hb.
  rewrite Forall_forall in Hb. specialize (Hb e Hin).
  unfold len in Hb. rewrite length_map, diff_length in Hb.
  unfold binarize in Hb at 1. rewrite length_map in Hb.
  apply nonzero_from_In in Hin.
  destruct Hin as [_ Hnth]. replace (e - 0) with e in Hnth by lia.
  rewrite (nth_map_default (Z.eqb (-1)) _ _ 0) in Hnth by reflexivity.
  apply Z.eqb_eq in Hnth.
  rewrite diff_nth, !binarize_nth in Hnth by (unfold binarize; rewrite length_map; lia).
  unfold above, len. replace (Z.to_nat (e + 1)) with (S (Z.to_nat e)) by lia.
  destruct (gt (nth (Z.to_nat e) vertical NaN) threshold),
           (gt (nth (S (Z.to_nat e)) vertical NaN) threshold);
    cbn [astype_int] in Hnth; first [repeat split; (reflexivity || lia) | lia].
Qed.

(** What [step_ID] returns, as a selection from the edges. *)
Lemma step_ID_edges (force : array2) (threshold Fs min_step max_step : Q)
    (vertical : list sample) (begins ends : list Z) :
  col 2 force = Ok vertical ->
  step_ID force threshold Fs min_step max_step = Ok (begins, ends) ->
  Forall2 (run (above vertical threshold)) begins ends /\
  Forall (fun b => In b (rising (diff (binarize vertical threshold)))) begins /\
  Forall (fun e => In e (falling (diff (binarize vertical threshold)))) ends.
Proof.
  intros Hcol H.
  destruct (step_ID_inv _ _ _ _ _ _ _ H) as (Hlt & vertical' & b0 & b1 & R & Hcol' & HR).
  assert (vertical' = vertical) by congruence. subst vertical'.
  destruct (step_ID_value force threshold Fs _ _ _ _ _ _ Hlt Hcol HR) as [_ Hval].
  rewrite Hval in H. injection H as Hb He. rewrite <- Hb, <- He.
  pose proof (events_runs vertical threshold) as Hruns. rewrite HR in Hruns.
  apply runs_select in Hruns.
  split; [apply Forall2_compress; exact Hruns|]. split.
  - apply Forall_compress. apply Forall_take. rewrite <- HR.
    apply Forall_forall. intros b Hb'. exact Hb'.
  - apply Forall_compress. apply Forall_forall. intros e He'.
    apply filter_In in He'. exact (proj1 He').
Qed.

(** X2. Every step that [step_ID] returns is a whole run above the
    threshold: the sample at the begin index is not above it, every sample
    after it up to the end index is, and the sample after the end index is
    not. *)
Theorem step_ID_stance_runs (force : array2) (threshold Fs min_step max_step : Q)
    (vertical : list sample) (begins ends : list Z) :
  col 2 force = Ok vertical ->
  step_ID force threshold Fs min_step max_step = Ok (begins, ends) ->
  forall i, (i < length begins)%nat ->
    above vertical threshold (nth i begins 0) = false /\
    (forall j, nth i begins 0 < j <= nth i ends 0 -> above vertical threshold j = true) /\
    above vertical threshold (nth i ends 0 + 1) = false.
Proof.
  intros Hcol H i Hi.
  destruct (step_ID_edges _ _ _ _ _ _ _ _ Hcol H) as (Hrun & HB & HE).
  pose proof (interleaved_length _ _ _ (step_ID_interleaved _ _ _ _ _ _ _ H)) as Hlen.
  split; [| split].
  - rewrite Forall_forall in HB.
    exact (proj1 (rising_edge_samples vertical threshold _ (HB _ (nth_In _ _ Hi)))).
  - exact (Forall2_nth_Z _ _ _ Hrun i Hi).
  - rewrite Forall_forall in HE.
    assert (Hi' : (i < length ends)%nat) by lia.
    exact (proj2 (proj2 (falling_edge_samples vertical threshold _ (HE _ (nth_In _ _ Hi'))))).
Qed.

Lemma step_ID_stance_runs_trial :
  above [Val 0; Val 8; Val 9; Val 1; Val 2; Val 3; Val 4; Val 8; Val 9; Val 2; Val 3;
         Val 4; Val 5; Val 8; Val 9; Val 3; Val 4; Val 5; Val 6; Val 8; Val 9; Val 0; Val 0]
        7 (nth 1 trial_begins 0) = false /\
  (forall j, nth 1 trial_begins 0 < j <= nth 1 trial_ends 0 ->
     above [Val 0; Val 8; Val 9; Val 1; Val 2; Val 3; Val 4; Val 8; Val 9; Val 2; Val 3;
            Val 4; Val 5; Val 8; Val 9; Val 3; Val 4; Val 5; Val 6; Val 8; Val 9; Val 0; Val 0]
           7 j = true) /\
  above [Val 0; Val 8; Val 9; Val 1; Val 2; Val 3; Val 4; Val 8; Val 9; Val 2; Val 3;
         Val 4; Val 5; Val 8; Val 9; Val 3; Val 4; Val 5; Val 6; Val 8; Val 9; Val 0; Val 0]
        7 (nth 1 trial_ends 0 + 1) = false.
Proof.
  apply (step_ID_stance_runs trial 7 10 1 4 _ trial_begins trial_ends).
  - reflexivity.
  - vm_compute. reflexivity.
  - simpl. lia.
Defined.

(** X3. Every index that [step_ID] returns is the index of a sample that has
    a sample after it: [0 <= begin < end < N - 1]. *)
Theorem step_ID_indices_in_range (force : array2) (threshold Fs min_step max_step : Q)
    (begins ends : list Z) :
  step_ID force threshold Fs min_step max_step = Ok (begins, ends) ->
  forall i, (i < length begins)%nat ->
    0 <= nth i begins 0 < nth i ends 0 /\ nth i ends 0 < len (rows force) - 1.
Proof.
  intros H i Hi.
  pose proof (step_ID_interleaved _ _ _ _ _ _ _ H) as Hil.
  destruct (interleaved_nth _ _ _ Hil i Hi) as (H0 & Hlt & _).
  destruct (step_ID_inv _ _ _ _ _ _ _ H) as (_ & vertical & _ & _ & _ & Hcol & _).
  destruct (step_ID_edges _ _ _ _ _ _ _ _ Hcol H) as (_ & _ & HE).
  rewrite Forall_forall in HE.
  assert (Hi' : (i < length ends)%nat)
    by (rewrite <- (interleaved_length _ _ _ Hil); exact Hi).
  destruct (falling_edge_samples vertical threshold _ (HE _ (nth_In ends 0 Hi'))) as [Hr _].
  apply col_width in Hcol. destruct Hcol as [_ Hcol].
  unfold len in *. rewrite Hcol in Hr. lia.
Qed.

Lemma step_ID_indices_in_range_trial :
  0 <= nth 3 trial_begins 0 < nth 3 trial_ends 0 /\
  nth 3 trial_ends 0 < len (rows trial) - 1.
Proof.
  apply (step_ID_indices_in_range trial 7 10 1 4 trial_begins trial_ends).
  - vm_compute. reflexivity.
  - simpl. lia.
Defined.

(** X4. On a signal with a vertical channel, [step_ID] returns exactly when
    [min_step < max_step] and the binarized channel has two rising edges or
    more. *)
Theorem step_ID_returns_iff (force : array2) (threshold Fs min_step max_step : Q)
    (vertical : list sample) :
  col 2 force = Ok vertical ->
  (exists begins ends,
     step_ID force threshold Fs min_step max_step = Ok (begins, ends)) <->
  (min_step < max_step)%Q /\
  (2 <= length (rising (diff (binarize vertical threshold))))%nat.
Proof.
  intros Hcol. split.
  - intros (begins & ends & H).
    destruct (step_ID_inv _ _ _ _ _ _ _ H) as (Hlt & vertical' & b0 & b1 & R & Hcol' & HR).
    assert (vertical' = vertical) by congruence. subst vertical'.
    split.
    + unfold Qlt_bool in Hlt. apply negb_true_iff in Hlt.
      apply Qnot_le_lt. intros Hle. apply Qle_bool_iff in Hle. congruence.
    + rewrite HR. cbn [length]. lia.
  - intros [Hlt Hlen]. exact (step_ID_returns _ _ _ _ _ _ Hlt Hcol Hlen).
Qed.

Lemma step_ID_returns_iff_trial :
  (exists begins ends, step_ID trial 7 10 1 4 = Ok (begins, ends)) <->
  (1 < 4)%Q /\
  (2 <= length (rising (diff (binarize
     [Val 0; Val 8; Val 9; Val 1; Val 2; Val 3; Val 4; Val 8; Val 9; Val 2; Val 3;
      Val 4; Val 5; Val 8; Val 9; Val 3; Val 4; Val 5; Val 6; Val 8; Val 9; Val 0; Val 0]
     7))))%nat.
Proof.
  apply (step_ID_returns_iff trial 7 10 1 4). reflexivity.
Defined.

Lemma rising_constant (side : bool) (vertical : list sample) (threshold : Q) :
  Forall (fun v => gt v threshold = side) vertical ->
  rising (diff (binarize vertical threshold)) = [].
Proof.
  intros H. unfold rising, nonzero. generalize 0 as i.
  destruct H as [|v vs Hv Hvs]; [reflexivity|].
  revert v Hv. induction Hvs as [|w ws Hw Hws IH]; intros v Hv i; [reflexivity|].
  change (diff (binarize (v :: w :: ws) threshold))
    with ((astype_int (gt w threshold) - astype_int (gt v threshold))
            :: diff (binarize (w :: ws) threshold)).
  rewrite Hv, Hw. rewrite Z.sub_diag. cbn [map nonzero_from Z.eqb].
  apply IH. exact Hw.
Qed.

(** X5. A vertical channel that stays on one side of the threshold, never
    above it or always above it, makes [step_ID] raise an [IndexError]. *)
Theorem step_ID_constant_side (force : array2) (threshold Fs min_step max_step : Q)
    (vertical : list sample) (side : bool) :
  (min_step < max_step)%Q ->
  col 2 force = Ok vertical ->
  Forall (fun v => gt v threshold = side) vertical ->
  is_IndexError (step_ID force threshold Fs min_step max_step).
Proof.
  intros _ Hcol Hside. unfold step_ID.
  destruct (Qlt_bool min_step max_step); [| eexists; reflexivity].
  rewrite Hcol. cbn [bind].
  assert (Hfew : (length (rising (diff (binarize vertical threshold))) < 2)%nat).
  { rewrite (rising_constant side _ _ Hside). simpl. lia. }
  destruct (pair_edges_few _ Hfew) as [msg ->]. exists msg. reflexivity.
Qed.

Lemma step_ID_constant_side_standing :
  is_IndexError (step_ID (signal [9; 9; 8; 9]) 7 10 1 4).
Proof.
  apply (step_ID_constant_side (signal [9; 9; 8; 9]) 7 10 1 4
           [Val 9; Val 9; Val 8; Val 9] true).
  - reflexivity.
  - reflexivity.
  - repeat constructor.
Defined.

(** ** Errors of the pipeline *)

(** X6. For a table of 3 columns that the filter accepts, a [min_step] of
    [0.4*Fs] or more makes [detrend_force] raise the error of [step_ID]. *)
Theorem detrend_force_min_step_too_large
    (lowpass : Q -> Q -> array2 -> result array2)
    (force_imported force_f : array2) (Fs Fc min_step step_threshold : Q)
    (clicks : list (Z * Z)) :
  width force_imported = 3%nat ->
  lowpass Fs Fc force_imported = Ok force_f ->
  ((4 # 10) * Fs <= min_step)%Q ->
  detrend_force lowpass force_imported Fs Fc min_step step_threshold clicks =
    Raise (IndexError no_separation).
Proof.
  intros Hw Hf Hle. unfold detrend_force, readcheck_input.
  rewrite Hw. cbn [Nat.eqb bind]. rewrite Hf. cbn [bind].
  unfold detrend_filtered, step_ID, Qlt_bool.
  apply Qle_bool_iff in Hle. rewrite Hle. reflexivity.
Qed.

Lemma detrend_force_min_step_too_large_trial :
  detrend_force (fun _ _ force => Ok force) trial 10 3 4 7 [(3, 5)] =
    Raise (IndexError no_separation).
Proof.
  apply (detrend_force_min_step_too_large (fun _ _ force => Ok force) trial trial).
  - reflexivity.
  - reflexivity.
  - discriminate.
Defined.

(** X7. When [step_ID] returns fewer than two steps, the pipeline raises an
    [IndexError], whatever is clicked. *)
Theorem detrend_needs_two_steps (force_f : array2) (Fs min_step step_threshold : Q)
    (clicks : list (Z * Z)) (begins ends : list Z) :
  step_ID force_f step_threshold Fs min_step ((4 # 10) * Fs)%Q = Ok (begins, ends) ->
  (length begins < 2)%nat ->
  is_IndexError (detrend_filtered force_f Fs min_step step_threshold clicks).
Proof.
  intros H Hlen.
  pose proof (interleaved_length _ _ _ (step_ID_interleaved _ _ _ _ _ _ _ H)) as Hl.
  unfold detrend_filtered. rewrite H. cbn [bind].
  unfold trim_aerial_phases.
  destruct begins as [|b [|b' begins]], ends as [|e [|e' ends]];
    simpl in Hlen, Hl; try lia; eexists; reflexivity.
Qed.

Lemma detrend_needs_two_steps_one :
  is_IndexError (detrend_filtered (signal [0; 9; 0; 9; 9; 9; 9; 0]) 5 1 7 [(1, 1)]).
Proof.
  apply (detrend_needs_two_steps (signal [0; 9; 0; 9; 9; 9; 9; 0]) 5 1 7 [(1, 1)] [0] [1]).
  - vm_compute. reflexivity.
  - simpl. lia.
Defined.

(** ** The accepted trim *)

(** X8. A trim that [trim_aerial_phases] returns is not negative, and it
    leaves the bounds of every trimmed aerial phase in order. *)
Theorem accepted_trim_fits (force : array2) (begin end_ : list Z)
    (clicks : list (Z * Z)) (trim : Z) :
  trim_aerial_phases force begin end_ clicks = Ok trim ->
  length begin = length end_ ->
  0 <= trim /\
  forall i, (S i < length begin)%nat ->
    nth i end_ 0 + trim <= nth (S i) begin 0 - trim.
Proof.
  intros H Hlen.
  destruct (trim_aerial_phases_accepts _ _ _ _ _ H) as [Hpos Hcheck].
  split; [exact Hpos|]. intros i Hi.
  destruct (check_trim_bound begin end_ trim Hlen) as [[_ Hok] | [Hbad _]].
  - specialize (Hok i Hi). unfold aerial_length in Hok. lia.
  - congruence.
Qed.

Lemma accepted_trim_fits_trial :
  0 <= 1 /\
  forall i, (S i < length trial_begins)%nat ->
    nth i trial_ends 0 + 1 <= nth (S i) trial_begins 0 - 1.
Proof.
  apply (accepted_trim_fits trial trial_begins trial_ends [(1, 5); (5, 3); (3, 5)] 1).
  - vm_compute. reflexivity.
  - reflexivity.
Defined.

Lemma ask_trim_more (start_a end_a : list bool) (clicks more : list (Z * Z)) :
  ask_trim start_a end_a clicks <> Waiting ->
  ask_trim start_a end_a (clicks ++ more) = ask_trim start_a end_a clicks.
Proof.
  induction clicks as [|[p0 p1] clicks IH]; cbn [ask_trim app]; [congruence|].
  destruct (getitem (nonzero start_a) 0) as [s| |]; cbn [bind]; try reflexivity.
  destruct ((p0 <? s) || (p1 <? s)); [exact IH|].
  destruct (getitem (nonzero end_a) 0) as [e| |]; cbn [bind]; try reflexivity.
  destruct ((e <? p0) || (e <? p1)); [exact IH|].
  destruct (p1 <? p0); [exact IH | reflexivity].
Qed.

(** X9. Once [trim_aerial_phases] has returned or raised, clicks that follow
    change nothing. *)
Theorem trim_aerial_phases_more_clicks (force : array2) (begin end_ : list Z)
    (clicks more : list (Z * Z)) :
  trim_aerial_phases force begin end_ clicks <> Waiting ->
  trim_aerial_phases force begin end_ (clicks ++ more) =
    trim_aerial_phases force begin end_ clicks.
Proof.
  unfold trim_aerial_phases.
  destruct (getitem begin 0); cbn [bind]; try reflexivity.
  destruct (getitem end_ 1); cbn [bind]; try reflexivity.
  destruct (col 2 force); cbn [bind]; try reflexivity.
  destruct (getitem end_ 0); cbn [bind]; try reflexivity.
  destruct (getitem2 force _ 2); cbn [bind]; try reflexivity.
  destruct (getitem begin 1); cbn [bind]; try reflexivity.
  destruct (getitem2 force _ 2); cbn [bind]; try reflexivity.
  intros H. rewrite ask_trim_more; [reflexivity|].
  intros Hw. rewrite Hw in H. cbn [bind] in H. congruence.
Qed.

Lemma trim_aerial_phases_more_clicks_trial :
  trim_aerial_phases trial trial_begins trial_ends ([(1, 5); (3, 5)] ++ [(4, 4)]) =
    trim_aerial_phases trial trial_begins trial_ends [(1, 5); (3, 5)].
Proof.
  apply (trim_aerial_phases_more_clicks trial trial_begins trial_ends
           [(1, 5); (3, 5)] [(4, 4)]).
  vm_compute. discriminate.
Defined.

(** ** The shape of the detrended signal *)

Lemma for_each_keeps {A S : Type} (P : S -> Prop) (body : S -> A -> result S)
    (l : list A) :
  (forall s x s', P s -> body s x = Ok s' -> P s') ->
  forall s0 s, P s0 -> for_each body l s0 = Ok s -> P s.
Proof.
  intros Hstep. induction l as [|x l IH]; intros s0 s H0 H; cbn [for_each] in H.
  - injection H as <-. exact H0.
  - destruct (body s0 x) as [s1| |] eqn:Hb; cbn [bind] in H; try discriminate.
    exact (IH s1 s (Hstep _ _ _ H0 Hb) H).
Qed.

Lemma Forall_pieces {A : Type} (P : A -> Prop) (n : nat) (l : list A) :
  Forall P l -> Forall P (firstn n l) /\ Forall P (skipn n l).
Proof.
  intros H. rewrite <- (firstn_skipn n l) in H. apply Forall_app in H. exact H.
Qed.

Lemma set_slice_rows (w : nat) (a b : Z) (d : sample) (X Y : list (list sample)) :
  Forall (fun r => length r = w) X ->
  Forall (fun r => length r = w) Y ->
  Forall (fun r => length r = w) (set_slice a b (minus_scalar d (slice a b X)) Y).
Proof.
  intros HX HY. unfold set_slice.
  destruct (clip a (len Y) <? clip b (len Y)); [| exact HY].
  apply Forall_app. split; [exact (proj1 (Forall_pieces _ _ _ HY))|].
  apply Forall_app. split; [| exact (proj2 (Forall_pieces _ _ _ HY))].
  unfold minus_scalar, slice. apply Forall_map.
  eapply Forall_impl;
    [| exact (proj1 (Forall_pieces _ _ _ (proj2 (Forall_pieces _ _ _ HX))))].
  intros r Hr. cbv beta. rewrite length_map. exact Hr.
Qed.

Lemma detrend_step_inv (force_f : array2) (sb : list Z) (am : array2)
    (fd fd' : list (list sample)) (i : Z) :
  detrend_step force_f sb am fd i = Ok fd' ->
  exists a b d,
    fd' = set_slice a b (minus_scalar d (slice a b (rows force_f))) fd.
Proof.
  unfold detrend_step. intros H.
  destruct (getitem2 am i 2) as [m0| |]; cbn [bind] in H; try discriminate.
  destruct (getitem2 am (i + 1) 2) as [m1| |]; cbn [bind] in H; try discriminate.
  destruct (getitem sb i) as [a| |]; cbn [bind] in H; try discriminate.
  destruct (getitem sb (i + 1)) as [b| |]; cbn [bind] in H; try discriminate.
  injection H as <-. eauto.
Qed.

(** X10. Whenever the loop of lines 253-259 returns, [force_fd] has the
    width and the number of rows of [force_f], and rows of that width when
    [force_f] has. *)
Theorem detrend_shape (force_f : array2) (step_begin_all : list Z)
    (aerial_means force_fd : array2) :
  detrend force_f step_begin_all aerial_means = Ok force_fd ->
  width force_fd = width force_f /\
  length (rows force_fd) = length (rows force_f) /\
  (Forall (fun r => length r = width force_f) (rows force_f) ->
   Forall (fun r => length r = width force_f) (rows force_fd)).
Proof.
  unfold detrend. intros H.
  destruct (for_each _ _ _) as [fd| |] eqn:Hfd; cbn [bind] in H; try discriminate.
  injection H as <-. cbn [width rows].
  split; [reflexivity|]. split.
  - revert Hfd. apply (for_each_keeps (fun s => length s = length (rows force_f))).
    + intros s x s' Hs Hb. apply detrend_step_inv in Hb.
      destruct Hb as (a & b & d & ->). unfold minus_scalar.
      rewrite set_slice_length; [exact Hs | symmetry; exact Hs].
    + unfold zeros_like. apply repeat_length.
  - intros Hrect. revert Hfd.
    apply (for_each_keeps (Forall (fun r => length r = width force_f))).
    + intros s x s' Hs Hb. apply detrend_step_inv in Hb.
      destruct Hb as (a & b & d & ->). apply set_slice_rows; assumption.
    + unfold zeros_like. apply Forall_forall. intros r Hr.
      apply repeat_spec in Hr. subst r. apply repeat_length.
Qed.

Lemma detrend_shape_trial :
  width trial_fd = width trial /\
  length (rows trial_fd) = length (rows trial) /\
  (Forall (fun r => length r = width trial) (rows trial) ->
   Forall (fun r => length r = width trial) (rows trial_fd)).
Proof.
  apply (detrend_shape trial trial_begins trial_means).
  vm_compute. reflexivity.
Defined.

Lemma detrend_filtered_windows_trial :
  exists begins ends,
    step_ID trial 7 10 1 ((4 # 10) * 10)%Q = Ok (begins, ends) /\
    length (rows trial_means) = (length begins - 1)%nat /\
    (forall i j, (i + 2 < length begins)%nat -> in_window begins i j ->
       nth_error (rows trial_fd) j =
         option_map (map (fun x => sub x (baseline trial_means i)))
           (nth_error (rows trial) j)) /\
    (forall j, (j < length (rows trial))%nat ->
       ~ (nth 0 begins 0 <= Z.of_nat j < nth (length begins - 2) begins 0) ->
       nth_error (rows trial_fd) j = Some (repeat zero (width trial))).
Proof.
  apply (detrend_filtered_windows trial 10 1 7 [(3, 5)] trial_fd trial_means
           [Val (-1 # 2); Val (-1 # 2)]).
  vm_compute. reflexivity.
Defined.

Lemma detrend_filtered_means_trial :
  exists begins ends trim,
    step_ID trial 7 10 1 ((4 # 10) * 10)%Q = Ok (begins, ends) /\
    trim_aerial_phases trial begins ends [(3, 5)] = Ok trim /\
    forall i c, (S i < length begins)%nat -> (c < 3)%nat ->
      nth i ends 0 + trim < nth (S i) begins 0 - trim ->
      nth c (nth i (rows trial_means) []) NaN =
        arithmetic_mean
          (samples_between trial c (nth i ends 0 + trim) (nth (S i) begins 0 - trim)).
Proof.
  apply (detrend_filtered_means trial 10 1 7 [(3, 5)] trial_fd trial_means
           [Val (-1 # 2); Val (-1 # 2)]).
  vm_compute. reflexivity.
Defined.

(** ** A trial of two steps *)

(** X13. A trial in which [step_ID] finds exactly two steps is detrended to
    zeros. *)
Theorem two_steps_detrend_to_zeros (force_f : array2) (Fs min_step step_threshold : Q)
    (clicks : list (Z * Z)) (force_fd aerial_means : array2)
    (aerial_means_d : list sample) (begins ends : list Z) :
  detrend_filtered force_f Fs min_step step_threshold clicks =
    Ok (force_fd, aerial_means, aerial_means_d) ->
  step_ID force_f step_threshold Fs min_step ((4 # 10) * Fs)%Q = Ok (begins, ends) ->
  length begins = 2%nat ->
  force_fd = Array2 (width force_f) (zeros_like force_f).
Proof.
  intros H Hsteps HK.
  destruct (detrend_filtered_inv _ _ _ _ _ _ _ _ H)
    as (begins' & ends' & trim & Hsteps' & _ & Hmeans & Hfd & _).
  assert (E : (begins', ends') = (begins, ends)) by congruence.
  injection E as -> ->.
  pose proof (interleaved_length _ _ _ (step_ID_interleaved _ _ _ _ _ _ _ Hsteps)) as Hlen.
  destruct (step_ID_inv _ _ _ _ _ _ _ Hsteps) as (_ & vertical & _ & _ & _ & Hcol & _).
  apply col_width in Hcol. destruct Hcol as [Hw _].
  rewrite aerial_means_of_value in Hmeans;
    [| exact Hw | rewrite length_removelast, length_tl; lia].
  injection Hmeans as <-.
  unfold detrend in Hfd. cbn [rows] in Hfd.
  replace (range (len (map (means_row force_f (removelast ends) (tl begins) trim)
                        (seq 0 (length (removelast ends)))) - 1)) with (@nil Z) in Hfd.
  - cbn [for_each bind] in Hfd. congruence.
  - unfold range, len. rewrite length_map, length_seq, length_removelast.
    replace (Z.to_nat (Z.of_nat (length ends - 1) - 1)) with 0%nat by lia. reflexivity.
Qed.

Lemma two_steps_detrend_to_zeros_short :
  Array2 3 (repeat [zero; zero; zero] 10) =
    Array2 (width (signal [0; 8; 9; 1; 2; 3; 4; 8; 9; 0]))
           (zeros_like (signal [0; 8; 9; 1; 2; 3; 4; 8; 9; 0])).
Proof.
  apply (two_steps_detrend_to_zeros (signal [0; 8; 9; 1; 2; 3; 4; 8; 9; 0]) 10 1 7
           [(3, 5)] _ (Array2 3 [[Val 1; Val 2; Val (3 # 2)]]) [] [0; 6] [2; 8]).
  - vm_compute. reflexivity.
  - vm_compute. reflexivity.
  - reflexivity.
Defined.

(** ** The aerial means of the detrended signal *)

Lemma aerial_means_d_of_raw (force_fd : array2) (ab ae : list Z) (trim : Z) :
  aerial_means_d_of force_fd ab ae trim =
    (means <- means_d_raw force_fd ab ae trim ;;
     Ok (filter (fun m => negb (feq m zero)) means)).
Proof. reflexivity. Qed.

Lemma mean_of_zeros (n : nat) :
  (0 < n)%nat -> same (np_mean (repeat zero n)) zero.
Proof.
  intros Hn.
  assert (Hrep : repeat zero n = map Val (repeat 0%Q n)).
  { clear Hn. induction n as [|n IH]; [reflexivity|]. cbn [repeat map]. rewrite <- IH.
    reflexivity. }
  assert (Hsum : (fold_right Qplus 0 (repeat 0%Q n) == 0)%Q).
  { clear. induction n as [|n IH]; [reflexivity|]. cbn [repeat fold_right].
    rewrite IH. reflexivity. }
  destruct n as [|n]; [lia|].
  change (np_mean (repeat zero (S n)))
    with (div (fold_left add (repeat zero (S n)) zero)
              (Val (inject_Z (len (repeat zero (S n)))))).
  rewrite Hrep. unfold zero.
  destruct (sum_finite (repeat 0%Q (S n)) 0%Q) as (s & -> & E).
  cbn [div lift2 same]. rewrite Qred_correct, E, Hsum.
  unfold Qdiv. ring.
Qed.

Lemma in_indices (lo hi j : Z) : In j (indices lo hi) -> lo <= j < hi.
Proof.
  unfold indices. intros H. apply in_map_iff in H. destruct H as (k & <- & Hk).
  apply in_seq in Hk. lia.
Qed.

(** A slice of the vertical column of [fd], where every row of [fd] is the
    row of [f] with [h] applied to its entries. *)
Lemma column_slice_map (h : sample -> sample) (f fd : list (list sample)) (lo hi : Z) :
  h NaN = NaN ->
  length fd = length f ->
  0 <= lo -> lo <= hi -> hi <= len f ->
  (forall j, lo <= Z.of_nat j < hi ->
     nth_error fd j = option_map (map h) (nth_error f j)) ->
  slice lo hi (map (fun r => nth 2 r NaN) fd) =
    map h (slice lo hi (map (fun r => nth 2 r NaN) f)).
Proof.
  intros Hh Hlen H0 Hle Hn Hrows.
  rewrite (slice_indices _ NaN lo hi), (slice_indices _ NaN lo hi);
    try assumption; try (unfold len in *; rewrite length_map; lia).
  rewrite map_map. apply map_ext_in. intros j Hj. apply in_indices in Hj.
  rewrite !(nth_map_default (fun r => nth 2 r NaN) _ _ []) by reflexivity.
  assert (Hj' : (Z.to_nat j < length f)%nat) by (unfold len in Hn; lia).
  specialize (Hrows (Z.to_nat j) ltac:(lia)).
  rewrite (nth_error_nth' f [] Hj') in Hrows. cbn [option_map] in Hrows.
  rewrite (nth_error_nth _ _ [] Hrows).
  apply (nth_map_default h). exact Hh.
Qed.

Lemma map_constant {A B : Type} (b : B) (l : list A) :
  map (fun _ => b) l = repeat b (length l).
Proof. induction l as [|x l IH]; [reflexivity | cbn; rewrite IH; reflexivity]. Qed.

Lemma column_slice_zeros (w : nat) (fd : list (list sample)) (lo hi : Z) :
  (2 < w)%nat ->
  0 <= lo -> lo <= hi -> hi <= len fd ->
  (forall j, lo <= Z.of_nat j < hi -> nth_error fd j = Some (repeat zero w)) ->
  slice lo hi (map (fun r => nth 2 r NaN) fd) = repeat zero (Z.to_nat (hi - lo)).
Proof.
  intros Hw H0 Hle Hn Hrows.
  rewrite (slice_indices _ NaN lo hi);
    try assumption; try (unfold len in *; rewrite length_map; lia).
  replace (Z.to_nat (hi - lo)) with (length (indices lo hi))
    by (unfold indices; rewrite length_map, length_seq; reflexivity).
  rewrite <- map_constant. apply map_ext_in. intros j Hj. apply in_indices in Hj.
  rewrite (nth_map_default (fun r => nth 2 r NaN) _ _ []) by reflexivity.
  specialize (Hrows (Z.to_nat j) ltac:(lia)).
  rewrite (nth_error_nth _ _ [] Hrows).
  apply nth_repeat_lt. exact Hw.
Qed.

Lemma trim_aerial_phases_two (force : array2) (begin end_ : list Z)
    (clicks : list (Z * Z)) (trim : Z) :
  trim_aerial_phases force begin end_ clicks = Ok trim -> (2 <= length end_)%nat.
Proof.
  unfold trim_aerial_phases.
  destruct (getitem begin 0); cbn [bind]; try discriminate.
  destruct end_ as [|e [|e' end_]]; cbn [length]; try lia; discriminate.
Qed.

Lemma means_d_raw_value (force_fd : array2) (begins ends : list Z) (trim : Z) :
  (2 < width force_fd)%nat -> length begins = length ends ->
  means_d_raw force_fd (removelast ends) (tl begins) trim =
    Ok (map (fun i => np_mean
                (slice (nth i ends 0 + trim) (nth (S i) begins 0 - trim)
                   (map (fun r => nth 2 r NaN) (rows force_fd))))
          (seq 0 (length begins - 1))).
Proof.
  intros Hw Hlen. unfold means_d_raw, len.
  rewrite length_removelast, <- Hlen.
  apply collect_range. intros i Hi.
  rewrite (getitem_nth (removelast ends) i 0) by (rewrite length_removelast; lia).
  cbn [bind].
  rewrite (getitem_nth (tl begins) i 0) by (rewrite length_tl; lia). cbn [bind].
  rewrite nth_removelast by lia. rewrite nth_tl.
  unfold mean_of, col. apply Nat.ltb_lt in Hw. rewrite Hw. reflexivity.
Qed.

Lemma column_slice_samples (force : array2) (c : nat) (lo hi : Z) :
  0 <= lo -> lo <= hi -> hi <= len (rows force) ->
  slice lo hi (map (fun r => nth c r NaN) (rows force)) = samples_between force c lo hi.
Proof.
  intros H0 Hle Hn.
  rewrite (slice_indices _ NaN lo hi);
    [| exact H0 | exact Hle | unfold len in *; rewrite length_map; exact Hn].
  unfold samples_between. apply map_ext. intros j.
  apply (nth_map_default (fun r => nth c r NaN)). destruct c; reflexivity.
Qed.

Lemma same_zero_feq (x : sample) : same x zero -> feq x zero = true.
Proof.
  destruct x as [q|]; cbn [same feq zero]; [| intros []].
  intros H. apply Qeq_bool_iff. exact H.
Qed.

Lemma filter_drops {A : Type} (p : A -> bool) (l : list A) (k : nat) (d : A) :
  (k < length l)%nat -> p (nth k l d) = false ->
  (length (filter p l) < length l)%nat.
Proof.
  revert k. induction l as [|x l IH]; intros k Hk Hp; cbn [length] in *; [lia|].
  cbn [filter]. destruct k as [|k]; cbn [nth] in Hp.
  - rewrite Hp. pose proof (filter_length_le p l). lia.
  - specialize (IH k ltac:(lia) Hp).
    destruct (p x); cbn [length]; lia.
Qed.

(** X14. In a run of the pipeline, the vertical mean of the detrended signal
    over the trimmed aerial phase [i] is, for each corrected step [i], the
    mean of the filtered samples of that phase each less the baseline of
    step [i]; the last aerial phase lies in the window that the loop leaves
    at zero, so its mean is that of zeros and line 282 drops it from
    [aerial_means_d], which has K-2 entries at most; when the last phase is
    trimmed to nothing its mean is NaN. *)
Theorem detrended_means_drop_last (force_f : array2) (Fs min_step step_threshold : Q)
    (clicks : list (Z * Z)) (force_fd aerial_means : array2)
    (aerial_means_d : list sample) :
  detrend_filtered force_f Fs min_step step_threshold clicks =
    Ok (force_fd, aerial_means, aerial_means_d) ->
  exists begins ends trim raw,
    step_ID force_f step_threshold Fs min_step ((4 # 10) * Fs)%Q = Ok (begins, ends) /\
    trim_aerial_phases force_f begins ends clicks = Ok trim /\
    means_d_raw force_fd (removelast ends) (tl begins) trim = Ok raw /\
    aerial_means_d = filter (fun m => negb (feq m zero)) raw /\
    length raw = (length begins - 1)%nat /\
    (forall i, (i + 2 < length begins)%nat ->
       nth i raw NaN =
         np_mean (map (fun x => sub x (baseline aerial_means i))
                    (samples_between force_f 2
                       (nth i ends 0 + trim) (nth (S i) begins 0 - trim)))) /\
    (nth (length begins - 2) ends 0 + trim < nth (length begins - 1) begins 0 - trim ->
       feq (nth (length begins - 2) raw NaN) zero = true /\
       (length aerial_means_d <= length begins - 2)%nat) /\
    (nth (length begins - 2) ends 0 + trim = nth (length begins - 1) begins 0 - trim ->
       nth (length begins - 2) raw NaN = NaN).
Proof.
  intros H.
  destruct (detrend_filtered_inv _ _ _ _ _ _ _ _ H)
    as (begins & ends & trim & Hsteps & Htrim & Hmeans & Hfd & Hamd).
  pose proof (step_ID_interleaved _ _ _ _ _ _ _ Hsteps) as Hil.
  pose proof (interleaved_length _ _ _ Hil) as Hlen.
  pose proof (step_ID_in_range _ _ _ _ _ _ _ Hsteps) as Hrange.
  rewrite Forall_forall in Hrange.
  destruct (step_ID_inv _ _ _ _ _ _ _ Hsteps) as (_ & vertical & _ & _ & _ & Hcol & _).
  apply col_width in Hcol. destruct Hcol as [Hw _].
  destruct (trim_aerial_phases_accepts _ _ _ _ _ Htrim) as [Hpos Hcheck].
  assert (Hfit : forall i, (S i < length begins)%nat ->
            nth i ends 0 + trim <= nth (S i) begins 0 - trim).
  { intros i Hi.
    destruct (check_trim_bound begins ends trim Hlen) as [[_ Hok] | [Hbad _]];
      [| congruence].
    specialize (Hok i Hi). unfold aerial_length in Hok. lia. }
  pose proof (trim_aerial_phases_two _ _ _ _ _ Htrim) as HK.
  rewrite aerial_means_of_value in Hmeans;
    [| exact Hw | rewrite length_removelast, length_tl; lia].
  assert (Hrows : length (rows aerial_means) = (length begins - 1)%nat).
  { rewrite <- (f_equal (fun r => match r with Ok a => length (rows a) | _ => 0%nat end) Hmeans).
    cbn [rows]. rewrite length_map, length_seq, length_removelast. lia. }
  assert (Hwm : (2 < width aerial_means)%nat).
  { rewrite <- (f_equal (fun r => match r with Ok a => width a | _ => 3%nat end) Hmeans).
    cbn [width]. lia. }
  destruct (detrend_loop_windows force_f begins aerial_means Hrows Hwm)
    as (fd & Hfd' & Hwfd & Hlfd & Hwin & Hzero).
  { destruct (interleaved_lower _ _ _ Hil) as [Hlow _]. exact Hlow. }
  { apply ascending_nth. exact (interleaved_ascending _ _ _ Hil). }
  assert (fd = force_fd) by congruence. subst fd.
  rewrite aerial_means_d_of_raw in Hamd.
  rewrite (means_d_raw_value force_fd begins ends trim) in Hamd by (try lia; exact Hlen).
  cbn [bind] in Hamd.
  assert (Hd : aerial_means_d =
            filter (fun m => negb (feq m zero))
              (map (fun i => np_mean
                      (slice (nth i ends 0 + trim) (nth (S i) begins 0 - trim)
                         (map (fun r => nth 2 r NaN) (rows force_fd))))
                 (seq 0 (length begins - 1)))) by congruence.
  clear Hamd.
  exists begins, ends, trim. eexists.
  split; [exact Hsteps|].
  split; [exact Htrim|].
  split; [apply means_d_raw_value; [lia | exact Hlen]|].
  split; [exact Hd|].
  split; [rewrite length_map, length_seq; reflexivity|].
  assert (Hbounds : forall i, (S i < length begins)%nat ->
            0 <= nth i begins 0 < nth i ends 0 /\
            nth i ends 0 + trim <= nth (S i) begins 0 - trim /\
            nth (S i) begins 0 - trim <= len (rows force_f)).
  { intros i Hi.
    destruct (interleaved_nth _ _ _ Hil i ltac:(lia)) as (H0 & H1 & _).
    pose proof (Hrange _ (nth_In begins 0 Hi)). specialize (Hfit i Hi). lia. }
  split; [| split].
  - intros i Hi.
    rewrite nth_map_seq by lia.
    destruct (Hbounds i ltac:(lia)) as (Hb & Hle & Hhi).
    rewrite (column_slice_map (fun x => sub x (baseline aerial_means i))
               (rows force_f) (rows force_fd)); try assumption; try lia; try reflexivity.
    + rewrite column_slice_samples by lia. reflexivity.
    + intros j Hj. apply Hwin; [lia|]. unfold in_window. lia.
  - intros Hne.
    destruct (Hbounds (length begins - 2)%nat ltac:(lia)) as (Hb & Hle & Hhi).
    replace (S (length begins - 2)) with (length begins - 1)%nat in * by lia.
    assert (Hz : feq (nth (length begins - 2)
                   (map (fun i => np_mean
                           (slice (nth i ends 0 + trim) (nth (S i) begins 0 - trim)
                              (map (fun r => nth 2 r NaN) (rows force_fd))))
                      (seq 0 (length begins - 1))) NaN) zero = true).
    { rewrite nth_map_seq by lia.
      replace (S (length begins - 2)) with (length begins - 1)%nat by lia.
      apply same_zero_feq.
      rewrite (column_slice_zeros (width force_f)); try assumption; try lia.
      * apply mean_of_zeros. lia.
      * unfold len in *. rewrite Hlfd. exact Hhi.
      * intros j Hj. apply Hzero; [unfold len in Hhi; lia | lia]. }
    split; [exact Hz|].
    rewrite Hd.
    match goal with
    | |- (length (filter ?p ?l) <= _)%nat =>
        pose proof (filter_drops p l (length begins - 2) NaN) as Hdrop
    end.
    rewrite length_map, length_seq in Hdrop.
    specialize (Hdrop ltac:(lia)). rewrite Hz in Hdrop.
    specialize (Hdrop eq_refl). lia.
  - intros E.
    rewrite nth_map_seq by lia.
    replace (S (length begins - 2)) with (length begins - 1)%nat by lia.
    rewrite E. unfold slice. rewrite Z.sub_diag. reflexivity.
Qed.

Lemma detrended_means_drop_last_trial :
  exists begins ends trim raw,
    step_ID trial 7 10 1 ((4 # 10) * 10)%Q = Ok (begins, ends) /\
    trim_aerial_phases trial begins ends [(3, 5)] = Ok trim /\
    means_d_raw trial_fd (removelast ends) (tl begins) trim = Ok raw /\
    [Val (-1 # 2); Val (-1 # 2)] = filter (fun m => negb (feq m zero)) raw /\
    length raw = (length begins - 1)%nat /\
    (forall i, (i + 2 < length begins)%nat ->
       nth i raw NaN =
         np_mean (map (fun x => sub x (baseline trial_means i))
                    (samples_between trial 2
                       (nth i ends 0 + trim) (nth (S i) begins 0 - trim)))) /\
    (nth (length begins - 2) ends 0 + trim < nth (length begins - 1) begins 0 - trim ->
       feq (nth (length begins - 2) raw NaN) zero = true /\
       (length [Val (-1 # 2); Val (-1 # 2)] <= length begins - 2)%nat) /\
    (nth (length begins - 2) ends 0 + trim = nth (length begins - 1) begins 0 - trim ->
       nth (length begins - 2) raw NaN = NaN).
Proof.
  apply (detrended_means_drop_last trial 10 1 7 [(3, 5)] trial_fd trial_means
           [Val (-1 # 2); Val (-1 # 2)]).
  vm_compute. reflexivity.
Defined.

(** ** The clicks and the trim *)

Lemma round_half_between (a b : Z) :
  Z.min a b <= round_half (a + b) <= Z.max a b.
Proof.
  unfold round_half.
  destruct (Z.even (a + b)) eqn:E.
  - apply Z.even_spec in E. destruct E as [m E]. rewrite E.
    replace (2 * m / 2) with m by (rewrite Z.mul_comm, Z.div_mul; lia). lia.
  - assert (O : Z.odd (a + b) = true) by (rewrite <- Z.negb_even, E; reflexivity).
    apply Z.odd_spec in O. destruct O as [m O]. rewrite O.
    replace ((2 * m + 1) / 2) with m
      by (apply (Z.div_unique (2 * m + 1) 2 m 1); lia).
    destruct (Z.even m); lia.
Qed.

(** X15. A trim that the clicks give comes from a selection with both points
    between the start and the end line and in order, and it lies between
    the two distances that were selected. *)
Theorem trim_between_offsets (start_a end_a : list bool) (clicks : list (Z * Z))
    (trim : Z) :
  ask_trim start_a end_a clicks = Ok trim ->
  exists s e p0 p1,
    In (p0, p1) clicks /\
    getitem (nonzero start_a) 0 = Ok s /\
    getitem (nonzero end_a) 0 = Ok e /\
    s <= p0 <= p1 /\ p1 <= e /\
    trim = round_half ((p0 - s) + (e - p1)) /\
    Z.min (p0 - s) (e - p1) <= trim <= Z.max (p0 - s) (e - p1).
Proof.
  induction clicks as [|[p0 p1] clicks IH]; cbn [ask_trim]; [discriminate|].
  assert (Hrest : ask_trim start_a end_a clicks = Ok trim ->
            exists s e q0 q1,
              In (q0, q1) ((p0, p1) :: clicks) /\
              getitem (nonzero start_a) 0 = Ok s /\
              getitem (nonzero end_a) 0 = Ok e /\
              s <= q0 <= q1 /\ q1 <= e /\
              trim = round_half ((q0 - s) + (e - q1)) /\
              Z.min (q0 - s) (e - q1) <= trim <= Z.max (q0 - s) (e - q1)).
  { intros H. destruct (IH H) as (s & e & q0 & q1 & Hin & Hrest).
    exists s, e, q0, q1. split; [right; exact Hin | exact Hrest]. }
  destruct (getitem (nonzero start_a) 0) as [s| |] eqn:Hs; cbn [bind]; try discriminate.
  destruct (Z.ltb_spec p0 s) as [|H0]; cbn [orb]; [exact Hrest|].
  destruct (Z.ltb_spec p1 s) as [|H1]; cbn [orb]; [exact Hrest|].
  destruct (getitem (nonzero end_a) 0) as [e| |] eqn:He; cbn [bind]; try discriminate.
  destruct (Z.ltb_spec e p0) as [|H2]; cbn [orb]; [exact Hrest|].
  destruct (Z.ltb_spec e p1) as [|H3]; cbn [orb]; [exact Hrest|].
  destruct (Z.ltb_spec p1 p0) as [|H4]; [exact Hrest|].
  intros H. injection H as <-.
  exists s, e, p0, p1.
  replace (p0 - s + e - p1) with ((p0 - s) + (e - p1)) by lia.
  repeat split; try lia; try reflexivity.
  - left. reflexivity.
  - apply round_half_between.
  - apply round_half_between.
Qed.

Lemma trim_between_offsets_trial :
  exists s e p0 p1,
    In (p0, p1) [(1, 5); (5, 3); (4, 5)] /\
    getitem (nonzero [false; false; true; false; false; false; false; false]) 0 = Ok s /\
    getitem (nonzero [false; false; false; false; false; false; true; false]) 0 = Ok e /\
    s <= p0 <= p1 /\ p1 <= e /\
    2 = round_half ((p0 - s) + (e - p1)) /\
    Z.min (p0 - s) (e - p1) <= 2 <= Z.max (p0 - s) (e - p1).
Proof.
  apply (trim_between_offsets
           [false; false; true; false; false; false; false; false]
           [false; false; false; false; false; false; true; false]
           [(1, 5); (5, 3); (4, 5)] 2).
  vm_compute. reflexivity.
Defined.

(** ** Wider bounds keep the steps *)

Lemma compress_wider (g1 g2 : Z -> bool) (se sb : list Z) :
  (forall x, g1 x = true -> g2 x = true) ->
  incl (combine (compress (map g1 (zip_sub se sb)) sb)
                (compress (map g1 (zip_sub se sb)) se))
       (combine (compress (map g2 (zip_sub se sb)) sb)
                (compress (map g2 (zip_sub se sb)) se)).
Proof.
  intros Hg. revert sb. induction se as [|e se IH]; intros [|b sb]; cbn [zip_sub map compress];
    try (intros p Hp; exact Hp).
  destruct (g1 (e - b)) eqn:H1.
  - rewrite (Hg _ H1). cbn [combine]. intros p [<- | Hp]; [left; reflexivity|].
    right. exact (IH sb p Hp).
  - destruct (g2 (e - b)); [| exact (IH sb)].
    cbn [combine]. intros p Hp. right. exact (IH sb p Hp).
Qed.

(** X16. With a smaller [min_step] and a larger [max_step], [step_ID] returns
    every step it returned before. *)
Theorem step_ID_wider_bounds (force : array2) (threshold Fs Fs' : Q)
    (min_step max_step min_step' max_step' : Q) (begins ends : list Z) :
  (min_step' <= min_step)%Q -> (max_step <= max_step')%Q ->
  step_ID force threshold Fs min_step max_step = Ok (begins, ends) ->
  exists begins' ends',
    step_ID force threshold Fs' min_step' max_step' = Ok (begins', ends') /\
    incl (combine begins ends) (combine begins' ends').
Proof.
  intros Hmin Hmax H.
  destruct (step_ID_inv _ _ _ _ _ _ _ H) as (Hlt & vertical & b0 & b1 & R & Hcol & HR).
  destruct (step_ID_value force threshold Fs _ _ _ _ _ _ Hlt Hcol HR) as [_ Hval].
  assert (Hlt' : Qlt_bool min_step' max_step' = true).
  { unfold Qlt_bool in *. apply negb_true_iff in Hlt. apply negb_true_iff.
    destruct (Qle_bool max_step' min_step') eqn:E; [| reflexivity].
    apply Qle_bool_iff in E.
    assert (Hle : Qle_bool max_step min_step = true).
    { apply Qle_bool_iff.
      exact (Qle_trans _ _ _ Hmax (Qle_trans _ _ _ E Hmin)). }
    congruence. }
  destruct (step_ID_value force threshold Fs' _ _ _ _ _ _ Hlt' Hcol HR) as [_ Hval'].
  rewrite Hval in H. injection H as <- <-.
  eexists. eexists. split; [exact Hval'|].
  apply compress_wider. intros x Hx. unfold good in *.
  apply andb_true_iff in Hx. destruct Hx as [H1 H2].
  apply Qle_bool_iff in H1. apply Qle_bool_iff in H2.
  apply andb_true_iff. split; apply Qle_bool_iff.
  - exact (Qle_trans _ _ _ Hmin H1).
  - exact (Qle_trans _ _ _ H2 Hmax).
Qed.

Lemma step_ID_wider_bounds_trial :
  exists begins' ends',
    step_ID trial 7 10 1 5 = Ok (begins', ends') /\
    incl (combine [0; 6; 12; 18] [2; 8; 14; 20]) (combine begins' ends').
Proof.
  apply (step_ID_wider_bounds trial 7 10 10 2 3 1 5).
  - discriminate.
  - discriminate.
  - vm_compute. reflexivity.
Defined.

(** ** The shapes that the plots compare *)

(** X17. In a run of the pipeline there are two steps or more, the aerial
    means are one row of three entries per aerial phase, so the test of
    line 151 holds, and [aerial_means_d] has no more entries than there are
    aerial phases. *)
Theorem pipeline_shapes_agree (force_f : array2) (Fs min_step step_threshold : Q)
    (clicks : list (Z * Z)) (force_fd aerial_means : array2)
    (aerial_means_d : list sample) :
  detrend_filtered force_f Fs min_step step_threshold clicks =
    Ok (force_fd, aerial_means, aerial_means_d) ->
  exists begins ends,
    step_ID force_f step_threshold Fs min_step ((4 # 10) * Fs)%Q = Ok (begins, ends) /\
    (2 <= length begins)%nat /\
    width aerial_means = 3%nat /\
    Forall (fun r => length r = 3%nat) (rows aerial_means) /\
    shapes_agree aerial_means (removelast ends) (tl begins) = true /\
    (length aerial_means_d <= length begins - 1)%nat.
Proof.
  intros H.
  destruct (detrend_filtered_inv _ _ _ _ _ _ _ _ H)
    as (begins & ends & trim & Hsteps & Htrim & Hmeans & Hfd & Hamd).
  pose proof (interleaved_length _ _ _ (step_ID_interleaved _ _ _ _ _ _ _ Hsteps)) as Hlen.
  destruct (step_ID_inv _ _ _ _ _ _ _ Hsteps) as (_ & vertical & _ & _ & _ & Hcol & _).
  apply col_width in Hcol. destruct Hcol as [Hw _].
  pose proof (trim_aerial_phases_two _ _ _ _ _ Htrim) as HK.
  rewrite aerial_means_of_value in Hmeans;
    [| exact Hw | rewrite length_removelast, length_tl; lia].
  injection Hmeans as <-.
  exists begins, ends. split; [exact Hsteps|]. split; [lia|].
  split; [reflexivity|]. split; [| split].
  - cbn [rows]. apply Forall_map. apply Forall_forall. intros i _. reflexivity.
  - unfold shapes_agree. cbn [rows].
    rewrite length_map, length_seq, length_removelast, length_tl.
    rewrite Nat.eqb_refl. apply Nat.eqb_eq. lia.
  - rewrite aerial_means_d_of_raw in Hamd.
    assert (Hwfd : width force_fd = width force_f).
    { unfold detrend in Hfd. destruct (for_each _ _ _); cbn [bind] in Hfd;
        try discriminate. injection Hfd as <-. reflexivity. }
    rewrite (means_d_raw_value force_fd begins ends trim) in Hamd
      by (try exact Hlen; lia).
    cbn [bind] in Hamd. injection Hamd as <-.
    etransitivity; [apply filter_length_le|].
    rewrite length_map, length_seq. lia.
Qed.

Lemma pipeline_shapes_agree_trial :
  exists begins ends,
    step_ID trial 7 10 1 ((4 # 10) * 10)%Q = Ok (begins, ends) /\
    (2 <= length begins)%nat /\
    width trial_means = 3%nat /\
    Forall (fun r => length r = 3%nat) (rows trial_means) /\
    shapes_agree trial_means (removelast ends) (tl begins) = true /\
    (length [Val (-1 # 2); Val (-1 # 2)] <= length begins - 1)%nat.
Proof.
  apply (pipeline_shapes_agree trial 10 1 7 [(3, 5)] trial_fd trial_means
           [Val (-1 # 2); Val (-1 # 2)]).
  vm_compute. reflexivity.
Defined.
